(** * Sigil start-up and diagnostics (src/main.cpp)

    A shallow embedding of [MessageHandler], [GetMainWindow],
    [VerifyPlugins] and [main] of Sigil's [main.cpp].

    Everything the file does is a call into Qt or into another part of
    Sigil, so the embedding records the calls a run performs, in order,
    as a list of [Event]s.  What those calls answer (is this directory
    there, did the translator load, which widget has the focus, does
    this call throw) is read from a record describing the process and
    its surroundings.  Conditional compilation ([Q_OS_WIN32],
    [Q_OS_MAC], [__HAIKU__], [QT_VERSION], [QT_DEBUG]) is read from a
    [Build] record, so that one model covers every build of the file.

    The slots [file_new] and [file_open] of the macOS menu are only
    connected by [main]; they run from the event loop and their calls
    are not part of the traces here. *)

From Stdlib Require Import String Ascii List ZArith Bool Lia.
Import ListNotations.

Local Open Scope string_scope.
Local Open Scope Z_scope.
Local Open Scope list_scope.

(** ** Text *)

(** [QString] and C strings are both modelled as Rocq strings; the
    conversions between them are Qt's and are parameters of the model
    (see section [Sigil]). *)
Definition QString := string.
Definition CString := string.

Definition LF : string := String (ascii_of_nat 10) EmptyString.

Definition cat (a b : string) : string := String.append a b.
Infix "+++" := cat (right associativity, at level 60).

(** [QString::startsWith]. *)
Definition startsWith (s p : QString) : bool := String.prefix p s.

(** [QString(fmt).arg(a)] for a format whose only place marker is [%1]
    (all the formats of this file). The inserted text is not scanned
    again. *)
Fixpoint arg (fmt a : QString) : QString :=
  match fmt with
  | EmptyString => EmptyString
  | String c rest =>
      match rest with
      | String d rest' =>
          if (Ascii.eqb c "%" && Ascii.eqb d "1")%bool
          then a +++ arg rest' a
          else String c (arg rest a)
      | EmptyString => String c EmptyString
      end
  end.

(** [QStringList::contains]. *)
Definition contains (l : list QString) (s : QString) : bool :=
  existsb (String.eqb s) l.

(** ** Builds *)

Inductive Platform := Windows | MacOS | Haiku | OtherOS.

Record Build := {
  platform : Platform;
  QT_VERSION : Z;       (* compile-time Qt version, 0xMMNNPP *)
  QT_DEBUG : bool
}.

Definition Q_OS_WIN32 (b : Build) : bool :=
  match platform b with Windows => true | _ => false end.
Definition Q_OS_MAC (b : Build) : bool :=
  match platform b with MacOS => true | _ => false end.
Definition HAIKU (b : Build) : bool :=
  match platform b with Haiku => true | _ => false end.

(** ** Widgets *)

(** Objects are known by their address. *)
Definition QObject := nat.

(** The dynamic class of a widget, as far as [MessageHandler] looks at
    it: the class named, or one derived from it. A combo box carries
    the result of [QComboBox::lineEdit()], null unless the box is
    editable. *)
Inductive WidgetClass :=
| IsQPlainTextEdit
| IsBookViewPreview
| IsQLineEdit
| IsQComboBox (lineEdit : option QObject)
| IsOtherWidget.

Record QWidget := { address : QObject; class : WidgetClass }.

Definition dynamic_cast_QPlainTextEdit (w : QWidget) : option QObject :=
  match class w with IsQPlainTextEdit => Some (address w) | _ => None end.
Definition dynamic_cast_BookViewPreview (w : QWidget) : option QObject :=
  match class w with IsBookViewPreview => Some (address w) | _ => None end.
Definition dynamic_cast_QLineEdit (w : QWidget) : option QObject :=
  match class w with IsQLineEdit => Some (address w) | _ => None end.
Definition dynamic_cast_QComboBox (w : QWidget) : option (option QObject) :=
  match class w with IsQComboBox le => Some le | _ => None end.

(** ** Messages *)

Inductive QtMsgType :=
| QtDebugMsg | QtInfoMsg | QtWarningMsg | QtCriticalMsg | QtFatalMsg.

(** ** Objects of [main] *)

Inductive Translator := qtbaseTranslator | sigilTranslator.

Inductive MacAction := new_action | open_action | quit_action.

Inductive MacSlot := file_new | file_open | qApp_quit.

(** ** Events: the calls a run performs *)

Inductive Event :=
(* MessageHandler *)
| fprintf_stderr (text : CString)
| DisplayExceptionErrorDialog (text : QString)
| QTimer_singleShot (msec : Z) (receiver : option QObject) (member : string)
| QFile_open_append (path : QString)
| QTextStream_write (path : QString) (text : QString)
| abort
(* main, before the try block *)
| QMessageBox_critical_incompatible_Qt
| qFatal
| qInstallMessageHandler
| setOrganizationName (s : QString)
| setOrganizationDomain (s : QString)
| setApplicationName (s : QString)
| setApplicationVersion (s : QString)
| setAttribute_AA_DisableShaderDiskCache
| MainApplication_new
| startDragDistance
| setStartDragDistance (d : Z)
| EmbeddedPython_instance
| embeddedRoot
| launcherRoot
| addToPythonSysPath (p : QString)
(* main, inside the try block *)
| addLibraryPath (p : QString)
| codecForName (n : QString)
| setCodecForLocale
| SettingsStore_new
| uiLanguage
| GetPossibleTranslationPaths
| QDir_exists (path : QString)
| QTranslator_load (t : Translator) (name : QString) (dir : QString)
| installTranslator (t : Translator)
| DefinePrefsDir
| QFileInfo_new (path : QString)
| QFileInfo_exists (path : QString)
| QFileInfo_isFile (path : QString)
| QFileInfo_isReadable (path : QString)
| ReadUnicodeTextFile (path : QString)
| setStyleSheet (sheet : QString)
| setCursorFlashTime (ms : Z)
| QIcon_addFile (file : QString) (size : Z)
| setWindowIcon
| setDesktopFileName (n : QString)
| UpdateChecker_new
| CheckForUpdate
| AppEventFilter_new
| installEventFilter
| QCoreApplication_arguments
| processEvents
| getInitialFilePath
| absoluteFilePath (p : QString)
| GetPathToSigilScratchpad
| std_cout (line : string)
| setQuitOnLastWindowClosed (b : bool)
| QMainWindow_new_frameless
| setAttribute_WA_TranslucentBackground
| QMenuBar_new
| QMenu_new (title : QString)
| QAction_new (a : MacAction) (text : QString)
| setShortcut (a : MacAction) (keys : QString)
| setMenuRole_NoRole (a : MacAction)
| connect_triggered (a : MacAction) (slot : MacSlot)
| file_menu_addAction (a : MacAction)
| mac_menu_addMenu
| mac_menu_addAction (text : QString)
| setMenuBar
| basemw_show
| PluginDB_instance
| load_plugins_from_disk
| IsFileReadable (path : QString)
| MainWindow_new (filepath : QString)
| MainWindow_show
| app_exec.

Definition Trace := list Event.

(** What a trace holds, by kind of event. *)

Definition stderr_writes (t : Trace) : list CString :=
  flat_map (fun e => match e with fprintf_stderr s => [s] | _ => [] end) t.

Definition dialogs (t : Trace) : list QString :=
  flat_map (fun e => match e with
                     | DisplayExceptionErrorDialog s => [s] | _ => [] end) t.

Definition retries (t : Trace) : list (Z * option QObject * string) :=
  flat_map (fun e => match e with
                     | QTimer_singleShot d r m => [(d, r, m)] | _ => [] end) t.

Definition log_lines (t : Trace) : list (QString * QString) :=
  flat_map (fun e => match e with
                     | QTextStream_write p s => [(p, s)] | _ => [] end) t.

Definition stdout_lines (t : Trace) : list string :=
  flat_map (fun e => match e with std_cout s => [s] | _ => [] end) t.

Definition main_windows (t : Trace) : list QString :=
  flat_map (fun e => match e with MainWindow_new p => [p] | _ => [] end) t.

(** ** The surroundings of [MessageHandler] *)

Record Desktop := {
  focusWidget : option QWidget;           (* QApplication::focusWidget() *)
  getenv : string -> option QString;      (* the process environment *)
  opens_for_append : QString -> bool      (* does QFile::open succeed *)
}.

Definition qEnvironmentVariableIsSet (d : Desktop) (v : string) : bool :=
  match getenv d v with Some _ => true | None => false end.

Definition qEnvironmentVariableIsEmpty (d : Desktop) (v : string) : bool :=
  match getenv d v with
  | Some s => String.eqb s EmptyString
  | None => true
  end.

(** [QProcessEnvironment::systemEnvironment().value(v, dflt)]. *)
Definition systemEnvironment_value (d : Desktop) (v : string) (dflt : QString)
  : QString :=
  match getenv d v with Some s => s | None => dflt end.

Definition WIN_CLIPBOARD_ERROR : QString :=
  "QClipboard::setMimeData: Failed to set data on clipboard"%string.
Definition RETRY_DELAY_MS : Z := 5.
Definition SLOT_copy : string := "copy()"%string.
Definition LOGFILE_VARIABLE : string := "WINDOWS_SIGIL_DEBUG_LOGFILE"%string.

(** How a call of the handler ends. *)
Inductive Completion := Returns | Aborts.

(** ** The surroundings of [main] *)

(** What a C++ call can throw, as far as [catch (std::exception e)]
    tells things apart: an object of [std::exception] or of a class
    derived from it (with the text its own [what()] gives), or an object
    of any other type. *)
Inductive Exception :=
| std_exception (what : CString)
| other_exception.

(** The process [main] runs in: the build, which calls throw, and what
    the calls that return something answer. *)
Record Process := {
  build : Build;
  throws : Event -> option Exception;
  qVersion_suffices : bool;              (* run-time Qt is 5.0.0 or later *)
  SIGIL_VERSION : QString;
  app_startDragDistance : Z;
  epython_embeddedRoot : QString;
  PluginDB_launcherRoot : QString;
  settings_uiLanguage : QString;
  PossibleTranslationPaths : list QString;
  dir_exists : QString -> bool;
  translation_loads : QString -> QString -> bool;   (* name, directory *)
  PrefsDir : QString;
  info_exists : QString -> bool;
  info_isFile : QString -> bool;
  info_isReadable : QString -> bool;
  file_text : QString -> QString;
  env_is_set : string -> bool;
  arguments : list QString;              (* QCoreApplication::arguments() *)
  filter_initialFilePath : QString;      (* macOS FileOpen event, if any *)
  absolute : QString -> QString;
  SigilScratchpad : QString;
  file_readable : QString -> bool;
  exec_returns : Z
}.

(** How the process ends: [main] returns a status, an exception leaves
    [main] uncaught ([std::terminate]), or [qFatal] aborts it. *)
Inductive Exit :=
| exit_status (code : Z)
| terminate
| aborted.

(** *** Calls that may throw *)

Inductive Result (A : Type) :=
| Normal (a : A)
| Thrown (e : Exception).
Arguments Normal {A} a.
Arguments Thrown {A} e.

(** A piece of [main]: the calls that returned, then its value or the
    exception that ended it. *)
Definition Run (A : Type) : Type := Trace * Result A.

Definition ret {A} (a : A) : Run A := ([], Normal a).

Definition bind {A B} (m : Run A) (f : A -> Run B) : Run B :=
  match m with
  | (t, Normal a) => let (t', r) := f a in (t ++ t', r)
  | (t, Thrown e) => (t, Thrown e)
  end.

Notation "x <- m ;; k" := (bind m (fun x => k))
  (at level 61, m at next level, right associativity).
Notation "m ;; k" := (bind m (fun _ => k))
  (at level 61, right associativity).

(** The call [e], answering [v] unless it throws. *)
Definition call {A} (p : Process) (e : Event) (v : A) : Run A :=
  match throws p e with
  | Some x => ([], Thrown x)
  | None => ([e], Normal v)
  end.

Definition call_ (p : Process) (e : Event) : Run unit := call p e tt.

Definition when (c : bool) (m : Run unit) : Run unit :=
  if c then m else ret tt.

(** *** The timer queue *)

(** Modelled from the spec: Qt's timer queue ([QTimer::singleShot] and
    the event loop that fires it), which is Qt's code and not in this
    file. A deferred callback re-invokes the slot on its target when it
    fires, after checking that the target is still live; with no target
    or a destroyed one it does nothing. *)
Definition deferred_invocations (live : QObject -> bool) (t : Trace)
  : list (QObject * string) :=
  flat_map (fun e => match e with
                     | QTimer_singleShot _ (Some o) m =>
                         if live o then [(o, m)] else []
                     | _ => []
                     end) t.

Section Sigil.

(** Qt's text conversions, as the file uses them:
    [message.toLatin1().constData()], the [QString(const char * )]
    constructor, [QString::trimmed] and [QString::toStdString]. *)
Variable toLatin1_constData : QString -> CString.
Variable QString_of_chars : CString -> QString.
Variable trimmed : QString -> QString.
Variable toStdString : QString -> string.

(** The message a Critical event is tested and shown with:
    [QString(message.toLatin1().constData())]. *)
Definition error_message_of (message : QString) : QString :=
  QString_of_chars (toLatin1_constData message).

(** ** [MessageHandler], lines 128-212 *)

(** The Windows clipboard recovery of the Critical case (lines 150-192):
    [Some t] when one of its [break]s is reached after the calls [t],
    [None] when control falls out of it to the error dialog. *)
Definition clipboard_recovery (b : Build) (d : Desktop)
    (error_message : QString) : option Trace :=
  if Q_OS_WIN32 b then
    if startsWith error_message WIN_CLIPBOARD_ERROR then
      match focusWidget d with
      | Some widget =>
          match dynamic_cast_QPlainTextEdit widget with
          | Some textEdit =>
              Some [QTimer_singleShot RETRY_DELAY_MS (Some textEdit) SLOT_copy]
          | None =>
          match dynamic_cast_BookViewPreview widget with
          | Some bookViewPreview =>
              Some [QTimer_singleShot RETRY_DELAY_MS (Some bookViewPreview)
                      SLOT_copy]
          | None =>
          match dynamic_cast_QLineEdit widget with
          | Some lineEdit =>
              Some [QTimer_singleShot RETRY_DELAY_MS (Some lineEdit) SLOT_copy]
          | None =>
          match dynamic_cast_QComboBox widget with
          | Some comboBox_lineEdit =>
              Some [QTimer_singleShot RETRY_DELAY_MS comboBox_lineEdit
                      SLOT_copy]
          | None => None
          end end end end
      | None => None
      end
    else None
  else None.

(** The [switch] (lines 133-199): the calls made, the value left in
    [win_debug_message], and whether [abort()] was reached. *)
Definition handler_switch (b : Build) (d : Desktop)
    (type : QtMsgType) (message : QString) : Trace * QString * Completion :=
  match type with
  | QtDebugMsg =>
      ([fprintf_stderr ("Debug: " +++ toLatin1_constData message +++ LF)],
       arg "Debug: %1" (QString_of_chars (toLatin1_constData message)),
       Returns)
  | QtInfoMsg =>
      if 0x050600 <=? QT_VERSION b then
        ([fprintf_stderr ("Info: " +++ toLatin1_constData message +++ LF)],
         EmptyString, Returns)
      else ([], EmptyString, Returns)
  | QtWarningMsg =>
      ([fprintf_stderr ("Warning: " +++ toLatin1_constData message +++ LF)],
       EmptyString, Returns)
  | QtCriticalMsg =>
      let error_message := error_message_of message in
      match clipboard_recovery b d error_message with
      | Some t => (t, EmptyString, Returns)
      | None =>
          ([DisplayExceptionErrorDialog (arg "Critical: %1" error_message)],
           EmptyString, Returns)
      end
  | QtFatalMsg =>
      ([DisplayExceptionErrorDialog (arg "Fatal: %1" message); abort],
       EmptyString, Aborts)
  end.

(** The log-file block after the switch (lines 200-211). The result of
    [outFile.open] is not looked at; a text stream over a file that is
    not open writes nothing. *)
Definition handler_logfile (b : Build) (d : Desktop)
    (win_debug_message : QString) : Trace :=
  if Q_OS_WIN32 b then
    if (qEnvironmentVariableIsSet d LOGFILE_VARIABLE
        && negb (qEnvironmentVariableIsEmpty d LOGFILE_VARIABLE))%bool
    then
      let sigil_log_file :=
        trimmed (systemEnvironment_value d LOGFILE_VARIABLE EmptyString) in
      QFile_open_append sigil_log_file ::
      (if opens_for_append d sigil_log_file
       then [QTextStream_write sigil_log_file (win_debug_message +++ LF)]
       else [])
    else []
  else [].

Definition MessageHandler (b : Build) (d : Desktop)
    (type : QtMsgType) (message : QString) : Trace * Completion :=
  match handler_switch b d type message with
  | (t, win_debug_message, Returns) =>
      (t ++ handler_logfile b d win_debug_message, Returns)
  | (t, _, Aborts) => (t, Aborts)
  end.

(** ** [GetMainWindow], lines 68-76 *)

Definition GetMainWindow (p : Process) (arguments : list QString)
  : Run unit :=
  filepath <-
    (if Z.of_nat (length arguments) >? 1 then
       let a1 := nth 1 arguments EmptyString in
       readable <- call p (IsFileReadable a1) (file_readable p a1) ;;
       ret (if readable then a1 else EmptyString)
     else ret EmptyString) ;;
  call_ p (MainWindow_new filepath).

(** ** [GetApplicationIcon], lines 112-123 *)

Definition GetApplicationIcon (p : Process) : Run unit :=
  call_ p (QIcon_addFile ":/icon/app_icon_32.png" 32) ;;
  call_ p (QIcon_addFile ":/icon/app_icon_48.png" 48) ;;
  call_ p (QIcon_addFile ":/icon/app_icon_128.png" 128) ;;
  call_ p (QIcon_addFile ":/icon/app_icon_256.png" 256) ;;
  call_ p (QIcon_addFile ":/icon/app_icon_512.png" 512).

(** ** [VerifyPlugins], lines 215-219 *)

Definition VerifyPlugins (p : Process) : Run unit :=
  call_ p PluginDB_instance ;;
  call_ p load_plugins_from_disk.

(** ** [main], lines 223-418 *)

(** The loop of lines 277-283; [true] when it left by [break]. *)
Fixpoint qtbase_loop (p : Process) (qm_name_qtbase : QString)
    (paths : list QString) : Run bool :=
  match paths with
  | [] => ret false
  | path :: rest =>
      there <- call p (QDir_exists path) (dir_exists p path) ;;
      if there then
        loaded <- call p (QTranslator_load qtbaseTranslator qm_name_qtbase path)
                    (translation_loads p qm_name_qtbase path) ;;
        if loaded then ret true else qtbase_loop p qm_name_qtbase rest
      else qtbase_loop p qm_name_qtbase rest
  end.

(** The loop of lines 291-297. *)
Fixpoint sigil_loop (p : Process) (qm_name : QString)
    (paths : list QString) : Run bool :=
  match paths with
  | [] => ret false
  | path :: rest =>
      there <- call p (QDir_exists path) (dir_exists p path) ;;
      if there then
        loaded <- call p (QTranslator_load sigilTranslator qm_name path)
                    (translation_loads p qm_name path) ;;
        if loaded then ret true else sigil_loop p qm_name rest
      else sigil_loop p qm_name rest
  end.

(** Lines 227-260: what [main] does before it enters the [try] block. *)
Definition before_try (p : Process) : Run unit :=
  let b := build p in
  when (negb (QT_DEBUG b)) (call_ p qInstallMessageHandler) ;;
  call_ p (setOrganizationName "sigil-ebook") ;;
  call_ p (setOrganizationDomain "sigil-ebook.com") ;;
  call_ p (setApplicationName "sigil") ;;
  call_ p (setApplicationVersion (SIGIL_VERSION p)) ;;
  when (0x050900 <=? QT_VERSION b)
    (call_ p setAttribute_AA_DisableShaderDiskCache) ;;
  call_ p MainApplication_new ;;
  distance <- call p startDragDistance (app_startDragDistance p) ;;
  when (distance <? 50) (call_ p (setStartDragDistance 50)) ;;
  call_ p EmbeddedPython_instance ;;
  root <- call p embeddedRoot (epython_embeddedRoot p) ;;
  call_ p (addToPythonSysPath root) ;;
  launcher <- call p launcherRoot (PluginDB_launcherRoot p) ;;
  call_ p (addToPythonSysPath (launcher +++ "/python")).

(** Lines 266-298: library paths, codec, settings and the two
    translators. *)
Definition install_translations (p : Process) : Run unit :=
  call_ p (addLibraryPath "codecs") ;;
  call_ p (addLibraryPath "iconengines") ;;
  call_ p (addLibraryPath "imageformats") ;;
  call_ p (codecForName "utf8") ;;
  call_ p setCodecForLocale ;;
  call_ p SettingsStore_new ;;
  language <- call p uiLanguage (settings_uiLanguage p) ;;
  let qm_name_qtbase := arg "qtbase_%1" language in
  paths <- call p GetPossibleTranslationPaths (PossibleTranslationPaths p) ;;
  _ <- qtbase_loop p qm_name_qtbase paths ;;
  call_ p (installTranslator qtbaseTranslator) ;;
  language <- call p uiLanguage (settings_uiLanguage p) ;;
  let qm_name := arg "sigil_%1" language in
  paths <- call p GetPossibleTranslationPaths (PossibleTranslationPaths p) ;;
  _ <- sigil_loop p qm_name paths ;;
  call_ p (installTranslator sigilTranslator).

(** Lines 300-306: the style sheet of the preferences directory. *)
Definition apply_stylesheet (p : Process) : Run unit :=
  prefs <- call p DefinePrefsDir (PrefsDir p) ;;
  let qt_stylesheet_path := prefs +++ "/qt_styles.qss" in
  call_ p (QFileInfo_new qt_stylesheet_path) ;;
  there <- call p (QFileInfo_exists qt_stylesheet_path)
             (info_exists p qt_stylesheet_path) ;;
  usable <-
    (if there then
       is_file <- call p (QFileInfo_isFile qt_stylesheet_path)
                    (info_isFile p qt_stylesheet_path) ;;
       if is_file then
         call p (QFileInfo_isReadable qt_stylesheet_path)
           (info_isReadable p qt_stylesheet_path)
       else ret false
     else ret false) ;;
  when usable
    (qtstyles <- call p (ReadUnicodeTextFile qt_stylesheet_path)
                   (file_text p qt_stylesheet_path) ;;
     call_ p (setStyleSheet qtstyles)).

(** Lines 313-338: cursor, icon, update check, event filter. *)
Definition finish_setup (p : Process) : Run unit :=
  let b := build p in
  when (env_is_set p "SIGIL_DISABLE_CURSOR_BLINK")
    (call_ p (setCursorFlashTime 0)) ;;
  when (negb (Q_OS_WIN32 b) && negb (Q_OS_MAC b))
    (GetApplicationIcon p ;;
     call_ p setWindowIcon ;;
     when (0x050700 <=? QT_VERSION b)
       (call_ p (setDesktopFileName "sigil.desktop"))) ;;
  when (negb (HAIKU b))
    (call_ p UpdateChecker_new ;;
     call_ p CheckForUpdate) ;;
  call_ p AppEventFilter_new ;;
  call_ p installEventFilter.

(** Lines 340-353: the argument list, with the macOS FileOpen path
    appended when the command line has no argument of its own. *)
Definition read_arguments (p : Process) : Run (list QString) :=
  arguments <- call p QCoreApplication_arguments (arguments p) ;;
  if Q_OS_MAC (build p) then
    call_ p processEvents ;;
    filepath <- call p getInitialFilePath (filter_initialFilePath p) ;;
    if ((Z.of_nat (length arguments) =? 1)
        && negb (String.eqb filepath EmptyString))%bool
    then
      full <- call p (absoluteFilePath filepath) (absolute p filepath) ;;
      ret (arguments ++ [full])
    else ret arguments
  else ret arguments.

(** Lines 361-407: the macOS menu bar and the window that holds it. *)
Definition mac_menubar (p : Process) : Run unit :=
  call_ p (setQuitOnLastWindowClosed false) ;;
  call_ p QMainWindow_new_frameless ;;
  call_ p setAttribute_WA_TranslucentBackground ;;
  call_ p QMenuBar_new ;;
  call_ p (QMenu_new "File") ;;
  call_ p (QAction_new new_action "New") ;;
  call_ p (setShortcut new_action "Ctrl+N") ;;
  call_ p (connect_triggered new_action file_new) ;;
  call_ p (file_menu_addAction new_action) ;;
  call_ p (QAction_new open_action "Open") ;;
  call_ p (setShortcut open_action "Ctrl+O") ;;
  call_ p (connect_triggered open_action file_open) ;;
  call_ p (file_menu_addAction open_action) ;;
  call_ p (QAction_new quit_action "Quit") ;;
  call_ p (setMenuRole_NoRole quit_action) ;;
  call_ p (setShortcut quit_action "Ctrl+Q") ;;
  call_ p (connect_triggered quit_action qApp_quit) ;;
  call_ p (file_menu_addAction quit_action) ;;
  call_ p mac_menu_addMenu ;;
  call_ p (mac_menu_addAction "quit") ;;
  call_ p setMenuBar ;;
  call_ p basemw_show.

(** Lines 355-413: the [-t] query, or normal start-up. The value is
    what [main] returns. *)
Definition dispatch (p : Process) (arguments : list QString) : Run Z :=
  if contains arguments "-t" then
    scratchpad <- call p GetPathToSigilScratchpad (SigilScratchpad p) ;;
    call_ p (std_cout (toStdString scratchpad +++ LF)) ;;
    ret 1
  else
    when (Q_OS_MAC (build p)) (mac_menubar p) ;;
    VerifyPlugins p ;;
    GetMainWindow p arguments ;;
    call_ p MainWindow_show ;;
    call p app_exec (exec_returns p).

(** Lines 262-413: the body of the [try] block. *)
Definition try_block (p : Process) : Run Z :=
  install_translations p ;;
  apply_stylesheet p ;;
  finish_setup p ;;
  arguments <- read_arguments p ;;
  dispatch p arguments.

(** What [what()] of a [std::exception] object gives. The handler
    catches by value, so the object it asks is a plain [std::exception]
    copied from the one thrown. *)
Variable std_exception_what : CString.

Definition main (p : Process) : Trace * Exit :=
  if qVersion_suffices p then
    match before_try p with
    | (t0, Thrown _) => (t0, terminate)
    | (t0, Normal _) =>
        match try_block p with
        | (t, Normal status) => (t0 ++ t, exit_status status)
        | (t, Thrown (std_exception _)) =>
            (t0 ++ t ++
               [DisplayExceptionErrorDialog
                  (QString_of_chars std_exception_what)],
             exit_status 1)
        | (t, Thrown other_exception) => (t0 ++ t, terminate)
        end
    end
  else ([QMessageBox_critical_incompatible_Qt; qFatal], aborted).

End Sigil.

(** ** Reading traces *)

Definition probed (t : Trace) : list QString :=
  flat_map (fun e => match e with QDir_exists d => [d] | _ => [] end) t.

Definition load_attempts (t : Trace) : list (Translator * QString * QString) :=
  flat_map (fun e => match e with
                     | QTranslator_load tr n d => [(tr, n, d)] | _ => [] end) t.

Definition plugin_scan (e : Event) : bool :=
  match e with PluginDB_instance | load_plugins_from_disk => true | _ => false end.

(** The main window being constructed or shown. *)
Definition main_window_event (e : Event) : bool :=
  match e with MainWindow_new _ | MainWindow_show => true | _ => false end.

(** Any window being constructed or shown, the macOS menu-bar holder
    included. *)
Definition window_event (e : Event) : bool :=
  match e with
  | MainWindow_new _ | MainWindow_show
  | QMainWindow_new_frameless | basemw_show => true
  | _ => false
  end.

Definition is_dialog (e : Event) : bool :=
  match e with DisplayExceptionErrorDialog _ => true | _ => false end.

Definition is_stdout (e : Event) : bool :=
  match e with std_cout _ => true | _ => false end.

Definition is_exec (e : Event) : bool :=
  match e with app_exec => true | _ => false end.

(** Events that only normal start-up (lines 359-412) or the [catch]
    clause produce. *)
Definition past_dispatch (e : Event) : bool :=
  plugin_scan e || window_event e || is_exec e || is_dialog e || is_stdout e.

(** Every main-window event of [t] has a completed plugin scan before
    it. *)
Definition verified_first (t : Trace) : Prop :=
  forall before e after,
    t = before ++ e :: after -> main_window_event e = true ->
    In load_plugins_from_disk before.

(** The same, as a check: [seen] tells whether the scan has completed
    already. *)
Fixpoint scan_precedes (seen : bool) (t : Trace) : bool :=
  match t with
  | [] => true
  | e :: t' =>
      if main_window_event e then seen && scan_precedes seen t'
      else scan_precedes
             (seen || match e with load_plugins_from_disk => true
                      | _ => false end) t'
  end.

(** ** Processes in which no call throws *)

Definition quiet (p : Process) : Prop := forall e, throws p e = None.

(** The same process with every call returning. *)
Definition calm (p : Process) : Process :=
  {| build := build p;
     throws := fun _ => None;
     qVersion_suffices := qVersion_suffices p;
     SIGIL_VERSION := SIGIL_VERSION p;
     app_startDragDistance := app_startDragDistance p;
     epython_embeddedRoot := epython_embeddedRoot p;
     PluginDB_launcherRoot := PluginDB_launcherRoot p;
     settings_uiLanguage := settings_uiLanguage p;
     PossibleTranslationPaths := PossibleTranslationPaths p;
     dir_exists := dir_exists p;
     translation_loads := translation_loads p;
     PrefsDir := PrefsDir p;
     info_exists := info_exists p;
     info_isFile := info_isFile p;
     info_isReadable := info_isReadable p;
     file_text := file_text p;
     env_is_set := env_is_set p;
     arguments := arguments p;
     filter_initialFilePath := filter_initialFilePath p;
     absolute := absolute p;
     SigilScratchpad := SigilScratchpad p;
     file_readable := file_readable p;
     exec_returns := exec_returns p |}.

(** The list [arguments] holds when line 355 is reached (lines 340-353):
    on macOS a command line without arguments gets the path of the
    FileOpen event, if there was one. *)
Definition effective_arguments (p : Process) : list QString :=
  if (Q_OS_MAC (build p)
      && (Z.of_nat (length (arguments p)) =? 1)
      && negb (String.eqb (filter_initialFilePath p) EmptyString))%bool
  then arguments p ++ [absolute p (filter_initialFilePath p)]
  else arguments p.

(** The path [GetMainWindow] hands to the main window. *)
Definition initial_file_path (p : Process) (arguments : list QString)
  : QString :=
  match arguments with
  | _ :: a1 :: _ => if file_readable p a1 then a1 else EmptyString
  | _ => EmptyString
  end.

(** ** The resolver of the specification *)

(** The resolver as the specification words it (section 4.3), one
    operation for any resource: the directories that do not exist are
    skipped, the others are tried in list order up to the first that
    loads. It gives the directories tried and the one loaded from. *)
Fixpoint try_in_order (loads : QString -> bool) (present : list QString)
  : list QString * option QString :=
  match present with
  | [] => ([], None)
  | d :: rest =>
      if loads d then ([d], Some d)
      else let (tried, found) := try_in_order loads rest in (d :: tried, found)
  end.

Definition ResourceResolver_spec (exists_ loads : QString -> bool)
    (candidates : list QString) : list QString * option QString :=
  try_in_order loads (filter exists_ candidates).

(** What a run of one of the two loops of [main] did, in the same
    terms. *)
Definition resolution (r : Run bool) : list QString * option QString :=
  let tried := map snd (load_attempts (fst r)) in
  (tried,
   match snd r with
   | Normal true => last (map Some tried) None
   | _ => None
   end).

(** The trace of one loop with the other translator in its place. *)
Definition with_translator (tr : Translator) (e : Event) : Event :=
  match e with
  | QTranslator_load _ n d => QTranslator_load tr n d
  | _ => e
  end.

(** ** Sample builds, desktops and processes *)

(** For text of plain ASCII letters the conversions keep every
    character. *)
Definition as_is (s : string) : string := s.

Definition windows_build : Build :=
  {| platform := Windows; QT_VERSION := 0x050c00; QT_DEBUG := false |}.
Definition mac_build : Build :=
  {| platform := MacOS; QT_VERSION := 0x050c00; QT_DEBUG := false |}.
Definition haiku_build : Build :=
  {| platform := Haiku; QT_VERSION := 0x050c00; QT_DEBUG := false |}.
Definition linux_build : Build :=
  {| platform := OtherOS; QT_VERSION := 0x050c00; QT_DEBUG := false |}.

Definition code_view : QWidget := {| address := 1%nat; class := IsQPlainTextEdit |}.
Definition search_box : QWidget :=
  {| address := 2%nat; class := IsQComboBox (Some 3%nat) |}.
Definition style_box : QWidget := {| address := 4%nat; class := IsQComboBox None |}.
Definition tool_button : QWidget := {| address := 5%nat; class := IsOtherWidget |}.

Definition logfile_set_to (value : QString) (v : string) : option QString :=
  if String.eqb v LOGFILE_VARIABLE then Some value else None.

Definition desktop (focus : option QWidget) (env : string -> option QString)
    (opens : bool) : Desktop :=
  {| focusWidget := focus; getenv := env; opens_for_append := fun _ => opens |}.

Definition plain_desktop (focus : option QWidget) : Desktop :=
  desktop focus (fun _ => None) false.

Definition sample_process (b : Build) (args : list QString)
    (opened : QString) (throwing : Event -> option Exception) : Process :=
  {| build := b;
     throws := throwing;
     qVersion_suffices := true;
     SIGIL_VERSION := "0.9.18";
     app_startDragDistance := 10;
     epython_embeddedRoot := "/usr/share/sigil/python3lib";
     PluginDB_launcherRoot := "/usr/share/sigil/plugin_launchers";
     settings_uiLanguage := "fr";
     PossibleTranslationPaths :=
       ["/missing/translations"; "/usr/share/sigil/translations";
        "/opt/sigil/translations"];
     dir_exists := fun d => negb (String.eqb d "/missing/translations");
     translation_loads := fun _ d => String.eqb d "/opt/sigil/translations";
     PrefsDir := "/home/user/.local/share/sigil-ebook/sigil";
     info_exists := fun _ => false;
     info_isFile := fun _ => false;
     info_isReadable := fun _ => false;
     file_text := fun _ => EmptyString;
     env_is_set := fun _ => false;
     arguments := args;
     filter_initialFilePath := opened;
     absolute := as_is;
     SigilScratchpad := "/tmp/Sigil-XXXXXX";
     file_readable := fun f => String.eqb f "/home/user/book.epub";
     exec_returns := 0 |}.

(** The handler and [main] with these conversions. *)
Definition sample_handler := MessageHandler as_is as_is as_is.
Definition sample_main := main as_is as_is "std::exception".

Definition nothing_throws (e : Event) : option Exception := None.

Definition python_path_throws (e : Event) : option Exception :=
  match e with
  | addToPythonSysPath _ => Some (std_exception "bad_alloc")
  | _ => None
  end.

Definition settings_throw_foreign (e : Event) : option Exception :=
  match e with
  | SettingsStore_new => Some other_exception
  | _ => None
  end.

Definition plugin_scan_throws (e : Event) : option Exception :=
  match e with
  | load_plugins_from_disk => Some (std_exception "cannot read plugin folder")
  | _ => None
  end.

Definition normal_process : Process :=
  sample_process linux_build ["sigil"; "/home/user/book.epub"] EmptyString
    nothing_throws.
Definition query_process : Process :=
  sample_process linux_build ["sigil"; "-t"] EmptyString nothing_throws.
Definition mac_open_process : Process :=
  sample_process mac_build ["sigil"] "/home/user/book.epub" nothing_throws.
Definition python_failure_process : Process :=
  sample_process linux_build ["sigil"] EmptyString python_path_throws.
Definition foreign_failure_process : Process :=
  sample_process linux_build ["sigil"] EmptyString settings_throw_foreign.
Definition plugin_failure_process : Process :=
  sample_process linux_build ["sigil"] EmptyString plugin_scan_throws.

(** ** Describing runs *)

(** Every event of a run satisfies [P]. *)
Definition traced (P : Event -> Prop) {A} (m : Run A) : Prop :=
  Forall P (fst m).

(** A run that ends normally. *)
Definition finishes {A} (m : Run A) : Prop := exists a, snd m = Normal a.

(** [m] did what [m0] does, or stopped part of the way with an
    exception; [m0] ends normally. *)
Definition cut_short {A} (m m0 : Run A) : Prop :=
  exists a, snd m0 = Normal a /\
  (m = m0 \/ exists e rest, snd m = Thrown e /\ fst m0 = fst m ++ rest).

(** The calls of the two translator loops. *)
Definition resolver_event (e : Event) : bool :=
  match e with QDir_exists _ | QTranslator_load _ _ _ => true | _ => false end.

(** The calls of [main] up to the test of line 355, as far as they
    got. *)
Definition startup_trace (p : Process) : Trace :=
  fst (before_try p) ++ fst (install_translations p) ++
  fst (apply_stylesheet p) ++ fst (finish_setup p) ++ fst (read_arguments p).

Definition startup_call (e : Event) : Prop := past_dispatch e = false.

Definition no_main_window (e : Event) : Prop := main_window_event e = false.

Definition no_dialog (e : Event) : Prop := is_dialog e = false.

(** A run whose main-window events all follow a completed scan. *)
Definition scan_first {A} (m : Run A) : Prop :=
  scan_precedes false (fst m) = true.

(** ** The slots of the macOS menu, lines 79-107 *)

(** The two slots keep their names inside a module of their own, next
    to the [MacSlot] tags [main] connects them by. *)

(** A [QMap<QString, QString>], as the list of its entries in
    ascending order of the keys. *)
Definition QMap := list (QString * QString).

(** [QMap::values()]: the values in ascending order of their keys. *)
Definition values (m : QMap) : list QString := map snd m.

(** [QMap::value(key)]: the value of the key, or an empty string. *)
Definition value (m : QMap) (key : QString) : QString :=
  match find (fun kv => String.eqb (fst kv) key) m with
  | Some kv => snd kv
  | None => EmptyString
  end.

(** [QStringList::removeDuplicates()]: the first occurrence of every
    string stays, in place; [seen] holds the strings met so far. *)
Fixpoint removeDuplicates_seen (seen l : list QString) : list QString :=
  match l with
  | [] => []
  | x :: rest =>
      if existsb (String.eqb x) seen then removeDuplicates_seen seen rest
      else x :: removeDuplicates_seen (x :: seen) rest
  end.

Definition removeDuplicates (l : list QString) : list QString :=
  removeDuplicates_seen [] l.

(** The loop of lines 91-93: [filter_string += filter + ";;"]. *)
Definition join_filters (filters : list QString) : QString :=
  fold_left (fun filter_string filter => filter_string +++ (filter +++ ";;"))
    filters EmptyString.

(** What [file_open] finds: the load filters of the main window and the
    file name the user picks in the dialog (empty when the dialog is
    dismissed). *)
Record FileDialog := {
  LoadFiltersMap : QMap;
  picked_file : QString
}.

(** The calls of [file_open]: its own two, and those it shares with
    [main]. *)
Inductive SlotCall :=
| GetLoadFiltersMap
| getOpenFileName (caption dir filter selected_filter : QString)
| shared (e : Event).

Module Slots.

(** [file_new], lines 79-83. *)
Definition file_new (p : Process) : Run unit :=
  GetMainWindow p [] ;;
  call_ p MainWindow_show.

(** [file_open], lines 85-107. *)
Definition file_open (p : Process) (dlg : FileDialog)
  : list SlotCall * Result unit :=
  let load_filters := LoadFiltersMap dlg in
  let filters := removeDuplicates (values load_filters) in
  let filter_string := join_filters filters in
  let default_filter := value load_filters "epub" in
  let filename := picked_file dlg in
  let opened :=
    if negb (String.eqb filename EmptyString) then
      GetMainWindow p [EmptyString; filename] ;;
      call_ p MainWindow_show
    else ret tt in
  ([GetLoadFiltersMap;
    getOpenFileName "Open File" "~" filter_string default_filter]
   ++ map shared (fst opened),
   snd opened).

End Slots.

(** ** Reading traces, continued *)

Definition log_opens (t : Trace) : list QString :=
  flat_map (fun e => match e with QFile_open_append f => [f] | _ => [] end) t.

Definition installed (t : Trace) : list Translator :=
  flat_map (fun e => match e with installTranslator tr => [tr] | _ => [] end) t.

(** The calls only a macOS build of [main] makes. *)
Definition mac_only (e : Event) : bool :=
  match e with
  | processEvents | getInitialFilePath | absoluteFilePath _
  | setQuitOnLastWindowClosed _ | QMainWindow_new_frameless
  | setAttribute_WA_TranslucentBackground | QMenuBar_new | QMenu_new _
  | QAction_new _ _ | setShortcut _ _ | setMenuRole_NoRole _
  | connect_triggered _ _ | file_menu_addAction _ | mac_menu_addMenu
  | mac_menu_addAction _ | setMenuBar | basemw_show => true
  | _ => false
  end.

(** The name of the translation a translator is asked to load. *)
Definition qm_name_of (tr : Translator) (language : QString) : QString :=
  match tr with
  | qtbaseTranslator => "qtbase_" +++ language
  | sigilTranslator => "sigil_" +++ language
  end.

(** Sample dialogs. *)
Definition sample_filters : QMap :=
  [("*", "All Files (*.*)"); ("epub", "EPUB files (*.epub)");
   ("htm", "HTML files (*.htm *.html *.xhtml)");
   ("html", "HTML files (*.htm *.html *.xhtml)");
   ("txt", "Text files (*.txt)");
   ("xhtml", "HTML files (*.htm *.html *.xhtml)")].

Definition dialog_picking (f : QString) : FileDialog :=
  {| LoadFiltersMap := sample_filters; picked_file := f |}.

Definition mac_process : Process :=
  sample_process mac_build ["sigil"] EmptyString nothing_throws.
Definition haiku_process : Process :=
  sample_process haiku_build ["sigil"; "/home/user/book.epub"; "-x"]
    EmptyString nothing_throws.

(** ** What a call of [main] may be, by kind *)

(** What [GetMainWindow] probes and constructs. *)
Definition from_arguments (p : Process) (args : list QString) (e : Event)
  : Prop :=
  match e with
  | IsFileReadable f => nth_error args 1 = Some f
  | MainWindow_new path => path = initial_file_path p args
  | _ => True
  end.

(** A translation is asked for under the name of its translator, from
    a directory of the list that exists. *)
Definition translation_request (p : Process) (e : Event) : Prop :=
  match e with
  | QTranslator_load tr n d =>
      n = qm_name_of tr (settings_uiLanguage p) /\
      In d (PossibleTranslationPaths p) /\ dir_exists p d = true
  | _ => True
  end.

(** A style sheet is the text of a usable [qt_styles.qss]. *)
Definition stylesheet_request (p : Process) (e : Event) : Prop :=
  match e with
  | setStyleSheet sheet =>
      info_exists p (PrefsDir p +++ "/qt_styles.qss") = true /\
      info_isFile p (PrefsDir p +++ "/qt_styles.qss") = true /\
      info_isReadable p (PrefsDir p +++ "/qt_styles.qss") = true /\
      sheet = file_text p (PrefsDir p +++ "/qt_styles.qss")
  | _ => True
  end.

(** The drag distance is only raised, and to 50. *)
Definition drag_request (p : Process) (e : Event) : Prop :=
  match e with
  | setStartDragDistance d => d = 50 /\ app_startDragDistance p < 50
  | _ => True
  end.

(** The file probed is the second argument, outside the [-t] mode. *)
Definition probe_request (p : Process) (e : Event) : Prop :=
  match e with
  | IsFileReadable f =>
      nth_error (effective_arguments p) 1 = Some f /\
      contains (effective_arguments p) "-t" = false
  | _ => True
  end.

Definition update_check (e : Event) : bool :=
  match e with UpdateChecker_new | CheckForUpdate => true | _ => false end.

(** A process with a style sheet in the preferences directory and the
    cursor blink switched off. *)
Definition styled_process : Process :=
  {| build := linux_build;
     throws := nothing_throws;
     qVersion_suffices := true;
     SIGIL_VERSION := "0.9.18";
     app_startDragDistance := 80;
     epython_embeddedRoot := "/usr/share/sigil/python3lib";
     PluginDB_launcherRoot := "/usr/share/sigil/plugin_launchers";
     settings_uiLanguage := "de";
     PossibleTranslationPaths := [];
     dir_exists := fun _ => false;
     translation_loads := fun _ _ => false;
     PrefsDir := "/home/user/.local/share/sigil-ebook/sigil";
     info_exists := fun _ => true;
     info_isFile := fun _ => true;
     info_isReadable := fun _ => true;
     file_text := fun _ => "QToolBar { border: 0 }";
     env_is_set := fun v => String.eqb v "SIGIL_DISABLE_CURSOR_BLINK";
     arguments := ["sigil"; "-t"];
     filter_initialFilePath := EmptyString;
     absolute := as_is;
     SigilScratchpad := "/tmp/Sigil-XXXXXX";
     file_readable := fun _ => false;
     exec_returns := 0 |}.

(** * Properties *)

(** ** Text *)

Lemma cat_empty_r (s : string) : s +++ EmptyString = s.
Proof.
  unfold cat. induction s as [|c s IH]; simpl; [reflexivity | now rewrite IH].
Qed.

Lemma arg_Debug (a : QString) : arg "Debug: %1" a = "Debug: " +++ a.
Proof. unfold cat. simpl. now rewrite (cat_empty_r a). Qed.

Lemma arg_Critical (a : QString) : arg "Critical: %1" a = "Critical: " +++ a.
Proof. unfold cat. simpl. now rewrite (cat_empty_r a). Qed.

Lemma arg_Fatal (a : QString) : arg "Fatal: %1" a = "Fatal: " +++ a.
Proof. unfold cat. simpl. now rewrite (cat_empty_r a). Qed.

Lemma contains_app_l (l l' : list QString) (s : QString) :
  contains l s = true -> contains (l ++ l') s = true.
Proof.
  unfold contains. rewrite existsb_app. intros H.
  apply orb_true_iff. now left.
Qed.

Section Handler.

Variable toLatin1_constData : QString -> CString.
Variable QString_of_chars : CString -> QString.
Variable trimmed : QString -> QString.

Local Abbreviation handler :=
  (MessageHandler toLatin1_constData QString_of_chars trimmed).
Local Abbreviation switch :=
  (handler_switch toLatin1_constData QString_of_chars).
Local Abbreviation text_of :=
  (error_message_of toLatin1_constData QString_of_chars).

(** *** The log-file block only touches the log file *)

Lemma logfile_stderr b d m : stderr_writes (handler_logfile trimmed b d m) = [].
Proof.
  unfold handler_logfile.
  destruct (Q_OS_WIN32 b); [|reflexivity].
  destruct (_ && _)%bool; [|reflexivity].
  simpl. now destruct (opens_for_append d _).
Qed.

Lemma logfile_dialogs b d m : dialogs (handler_logfile trimmed b d m) = [].
Proof.
  unfold handler_logfile.
  destruct (Q_OS_WIN32 b); [|reflexivity].
  destruct (_ && _)%bool; [|reflexivity].
  simpl. now destruct (opens_for_append d _).
Qed.

Lemma logfile_retries b d m : retries (handler_logfile trimmed b d m) = [].
Proof.
  unfold handler_logfile.
  destruct (Q_OS_WIN32 b); [|reflexivity].
  destruct (_ && _)%bool; [|reflexivity].
  simpl. now destruct (opens_for_append d _).
Qed.

Lemma logfile_invocations live b d m :
  deferred_invocations live (handler_logfile trimmed b d m) = [].
Proof.
  unfold handler_logfile.
  destruct (Q_OS_WIN32 b); [|reflexivity].
  destruct (_ && _)%bool; [|reflexivity].
  simpl. now destruct (opens_for_append d _).
Qed.

(** *** The switch never writes to the log file *)

Lemma recovery_shape b d m t :
  clipboard_recovery b d m = Some t ->
  exists target, t = [QTimer_singleShot RETRY_DELAY_MS target SLOT_copy].
Proof.
  unfold clipboard_recovery.
  destruct (Q_OS_WIN32 b); [|discriminate].
  destruct (startsWith m WIN_CLIPBOARD_ERROR); [|discriminate].
  destruct (focusWidget d) as [w|]; [|discriminate].
  unfold dynamic_cast_QPlainTextEdit, dynamic_cast_BookViewPreview,
    dynamic_cast_QLineEdit, dynamic_cast_QComboBox.
  destruct (class w); intros E; inversion E; eauto.
Qed.

Lemma switch_log_lines b d type message :
  log_lines (fst (fst (switch b d type message))) = [].
Proof.
  destruct type; simpl; try reflexivity.
  - now destruct (_ <=? _).
  - destruct (clipboard_recovery b d _) as [t|] eqn:E; [|reflexivity].
    apply recovery_shape in E as [target ->]. reflexivity.
Qed.

(** The trace of the handler: the switch, then the log-file block
    unless the switch aborted. *)
Lemma handler_trace b d type message :
  fst (handler b d type message) =
  fst (fst (switch b d type message)) ++
  match snd (switch b d type message) with
  | Returns => handler_logfile trimmed b d
                 (snd (fst (switch b d type message)))
  | Aborts => []
  end.
Proof.
  unfold MessageHandler.
  destruct (switch b d type message) as [[t m] c].
  destruct c; cbn [fst snd]; [reflexivity | now rewrite app_nil_r].
Qed.

(** The trace of a Critical event: the retry or the dialog, then the
    log-file block. *)
Lemma critical_trace b d message :
  fst (handler b d QtCriticalMsg message) =
  match clipboard_recovery b d (text_of message) with
  | Some t => t
  | None => [DisplayExceptionErrorDialog ("Critical: " +++ text_of message)]
  end ++ handler_logfile trimmed b d EmptyString.
Proof.
  unfold MessageHandler, handler_switch.
  rewrite arg_Critical.
  now destruct (clipboard_recovery b d _).
Qed.

(** What the recovery does, by the class of the focused widget. *)
Lemma recovery_on_windows b d m w :
  Q_OS_WIN32 b = true ->
  startsWith m WIN_CLIPBOARD_ERROR = true ->
  focusWidget d = Some w ->
  clipboard_recovery b d m =
  match class w with
  | IsQPlainTextEdit | IsBookViewPreview | IsQLineEdit =>
      Some [QTimer_singleShot RETRY_DELAY_MS (Some (address w)) SLOT_copy]
  | IsQComboBox le => Some [QTimer_singleShot RETRY_DELAY_MS le SLOT_copy]
  | IsOtherWidget => None
  end.
Proof.
  intros Hb Hm Hw. unfold clipboard_recovery. rewrite Hb, Hm, Hw.
  unfold dynamic_cast_QPlainTextEdit, dynamic_cast_BookViewPreview,
    dynamic_cast_QLineEdit, dynamic_cast_QComboBox.
  now destruct (class w).
Qed.

Lemma no_recovery b d m :
  Q_OS_WIN32 b = false \/ startsWith m WIN_CLIPBOARD_ERROR = false \/
  focusWidget d = None \/
  (exists w, focusWidget d = Some w /\ class w = IsOtherWidget) ->
  clipboard_recovery b d m = None.
Proof.
  unfold clipboard_recovery.
  intros [H | [H | [H | [w [H Hc]]]]].
  - now rewrite H.
  - rewrite H. now destruct (Q_OS_WIN32 b).
  - rewrite H. destruct (Q_OS_WIN32 b); [|reflexivity].
    now destruct (startsWith _ _).
  - rewrite H. destruct (Q_OS_WIN32 b); [|reflexivity].
    destruct (startsWith _ _); [|reflexivity].
    unfold dynamic_cast_QPlainTextEdit, dynamic_cast_BookViewPreview,
      dynamic_cast_QLineEdit, dynamic_cast_QComboBox.
    now rewrite Hc.
Qed.

(** C1, as amended. Where the recovery is compiled in (a Windows
    build), a Critical event whose message (as the handler reads it)
    starts with the clipboard signature gets one retry of [copy()]
    after 5 ms and no dialog when a widget of a supported class has the
    focus: the retry goes to the focused widget itself for a text
    editor, a book-view preview and a line edit, and for a combo box
    that has an embedded line edit it goes to that line edit, not to
    the combo box. With other text, no focused widget, a widget of
    another class, or a build without the recovery, the dialog is shown
    and no retry is scheduled. (What happens for a combo box without a
    line edit is not part of this statement.) *)
Theorem clipboard_retry_or_dialog b d message :
  let t := fst (handler b d QtCriticalMsg message) in
  let text := text_of message in
  (forall w,
      Q_OS_WIN32 b = true -> startsWith text WIN_CLIPBOARD_ERROR = true ->
      focusWidget d = Some w ->
      class w = IsQPlainTextEdit \/ class w = IsBookViewPreview \/
      class w = IsQLineEdit ->
      retries t = [(5, Some (address w), "copy()")] /\ dialogs t = [])
  /\
  (forall w line_edit,
      Q_OS_WIN32 b = true -> startsWith text WIN_CLIPBOARD_ERROR = true ->
      focusWidget d = Some w -> class w = IsQComboBox (Some line_edit) ->
      retries t = [(5, Some line_edit, "copy()")] /\ dialogs t = [])
  /\
  (Q_OS_WIN32 b = false \/ startsWith text WIN_CLIPBOARD_ERROR = false \/
   focusWidget d = None \/
   (exists w, focusWidget d = Some w /\ class w = IsOtherWidget) ->
   retries t = [] /\ dialogs t = ["Critical: " +++ text]).
Proof.
  cbv zeta. rewrite critical_trace.
  unfold retries, dialogs. rewrite !flat_map_app.
  fold (retries (handler_logfile trimmed b d EmptyString)).
  fold (dialogs (handler_logfile trimmed b d EmptyString)).
  rewrite logfile_retries, logfile_dialogs, !app_nil_r.
  split; [|split].
  - intros w Hb Hm Hw Hc.
    rewrite (recovery_on_windows b d _ w Hb Hm Hw).
    destruct Hc as [-> | [-> | ->]]; split; reflexivity.
  - intros w line_edit Hb Hm Hw Hc.
    rewrite (recovery_on_windows b d _ w Hb Hm Hw), Hc.
    split; reflexivity.
  - intros H. rewrite (no_recovery b d _ H). split; reflexivity.
Qed.

(** C10. On the recovery path with a combo box in focus, the retry is
    scheduled on what [lineEdit()] of the box gives, not on the box;
    for a box that is not editable this is the null pointer, and then
    no [copy()] is ever invoked when the timer fires. *)
Theorem combo_box_retry_goes_to_line_edit b d message w le live :
  Q_OS_WIN32 b = true ->
  startsWith (text_of message) WIN_CLIPBOARD_ERROR = true ->
  focusWidget d = Some w ->
  class w = IsQComboBox le ->
  let t := fst (handler b d QtCriticalMsg message) in
  retries t = [(RETRY_DELAY_MS, le, SLOT_copy)] /\
  dialogs t = [] /\
  deferred_invocations live t =
    match le with
    | Some line_edit => if live line_edit then [(line_edit, SLOT_copy)] else []
    | None => []
    end.
Proof.
  intros Hb Hm Hw Hc. cbv zeta. rewrite critical_trace.
  rewrite (recovery_on_windows b d _ w Hb Hm Hw), Hc.
  unfold retries, dialogs, deferred_invocations. rewrite !flat_map_app.
  fold (retries (handler_logfile trimmed b d EmptyString)).
  fold (dialogs (handler_logfile trimmed b d EmptyString)).
  fold (deferred_invocations live (handler_logfile trimmed b d EmptyString)).
  rewrite logfile_retries, logfile_dialogs, logfile_invocations.
  repeat split. simpl. destruct le as [o|]; [|reflexivity].
  now destruct (live o).
Qed.


(** *** The log file *)

Lemma handler_log_lines b d type message :
  log_lines (fst (handler b d type message)) =
  match type with
  | QtFatalMsg => []
  | _ => log_lines (handler_logfile trimmed b d
                      (snd (fst (switch b d type message))))
  end.
Proof.
  pose proof (switch_log_lines b d type message) as Hs.
  assert (Hc : snd (switch b d type message) =
               match type with QtFatalMsg => Aborts | _ => Returns end).
  { destruct type; simpl; try reflexivity.
    - now destruct (_ <=? _).
    - now destruct (clipboard_recovery b d _). }
  unfold MessageHandler.
  destruct (switch b d type message) as [[t m] c].
  cbn [fst snd] in *. subst c.
  destruct type; cbn [fst]; try exact Hs;
    unfold log_lines in *; rewrite flat_map_app, Hs; reflexivity.
Qed.

Lemma logfile_unset b d m :
  getenv d LOGFILE_VARIABLE = None \/
  getenv d LOGFILE_VARIABLE = Some EmptyString ->
  handler_logfile trimmed b d m = [].
Proof.
  unfold handler_logfile, qEnvironmentVariableIsSet,
    qEnvironmentVariableIsEmpty.
  intros [-> | ->]; now destruct (Q_OS_WIN32 b).
Qed.

Lemma logfile_set b d m v :
  Q_OS_WIN32 b = true ->
  getenv d LOGFILE_VARIABLE = Some v -> v <> EmptyString ->
  handler_logfile trimmed b d m =
  QFile_open_append (trimmed v) ::
  (if opens_for_append d (trimmed v)
   then [QTextStream_write (trimmed v) (m +++ LF)] else []).
Proof.
  intros Hb Hv Hne.
  unfold handler_logfile, qEnvironmentVariableIsSet,
    qEnvironmentVariableIsEmpty, systemEnvironment_value.
  rewrite Hb, Hv.
  destruct (String.eqb_spec v EmptyString) as [->|_]; [now elim Hne|].
  reflexivity.
Qed.

Lemma logfile_closed b d m v :
  getenv d LOGFILE_VARIABLE = Some v ->
  opens_for_append d (trimmed v) = false ->
  log_lines (handler_logfile trimmed b d m) = [].
Proof.
  intros Hv Ho.
  unfold handler_logfile, qEnvironmentVariableIsSet,
    qEnvironmentVariableIsEmpty, systemEnvironment_value.
  rewrite Hv. destruct (Q_OS_WIN32 b); [|reflexivity].
  destruct (_ && _)%bool; [|reflexivity].
  now rewrite Ho.
Qed.

(** Apart from the log file, the handler does the same whatever the
    environment and the file system are. *)
Lemma handler_apart_from_log b d d' type message :
  focusWidget d' = focusWidget d ->
  let t := fst (handler b d type message) in
  let t' := fst (handler b d' type message) in
  dialogs t' = dialogs t /\ stderr_writes t' = stderr_writes t /\
  retries t' = retries t /\
  snd (handler b d' type message) = snd (handler b d type message).
Proof.
  intros Hf. cbv zeta.
  assert (Hr : forall m, clipboard_recovery b d' m = clipboard_recovery b d m).
  { intros m. unfold clipboard_recovery. now rewrite Hf. }
  assert (Hs : switch b d' type message = switch b d type message).
  { destruct type; simpl; try reflexivity. now rewrite Hr. }
  unfold MessageHandler. rewrite Hs.
  destruct (switch b d type message) as [[t m] c]. destruct c; simpl.
  - unfold dialogs, stderr_writes, retries. rewrite !flat_map_app.
    fold (dialogs (handler_logfile trimmed b d m)).
    fold (dialogs (handler_logfile trimmed b d' m)).
    fold (stderr_writes (handler_logfile trimmed b d m)).
    fold (stderr_writes (handler_logfile trimmed b d' m)).
    fold (retries (handler_logfile trimmed b d m)).
    fold (retries (handler_logfile trimmed b d' m)).
    now rewrite !logfile_dialogs, !logfile_stderr, !logfile_retries.
  - repeat split.
Qed.

(** The log line of a Debug event. On a Windows build a Debug event
    appends one line,
    [Debug: ] and the message, to the file the variable names, when the
    variable is set and not empty and the file opens for appending.
    When the file does not open nothing is written to it, and the
    dialogs, the standard-error output, the retries and the way the
    handler ends are the same as with any other environment and file
    system: the failure goes unreported. No event writes to a log file
    when the variable is unset or empty, on a build for another
    platform, or when the event is Fatal. *)
Theorem debug_log_line b d type message :
  let t := fst (handler b d type message) in
  (forall v,
      Q_OS_WIN32 b = true -> type = QtDebugMsg ->
      getenv d LOGFILE_VARIABLE = Some v -> v <> EmptyString ->
      opens_for_append d (trimmed v) = true ->
      log_lines t = [(trimmed v, ("Debug: " +++ text_of message) +++ LF)])
  /\
  (forall v,
      getenv d LOGFILE_VARIABLE = Some v ->
      opens_for_append d (trimmed v) = false ->
      log_lines t = [])
  /\
  (forall d',
      focusWidget d' = focusWidget d ->
      let t' := fst (handler b d' type message) in
      dialogs t' = dialogs t /\ stderr_writes t' = stderr_writes t /\
      retries t' = retries t /\
      snd (handler b d' type message) = snd (handler b d type message))
  /\
  (getenv d LOGFILE_VARIABLE = None \/
   getenv d LOGFILE_VARIABLE = Some EmptyString -> log_lines t = [])
  /\
  (Q_OS_WIN32 b = false -> log_lines t = [])
  /\
  (type = QtFatalMsg -> log_lines t = []).
Proof.
  cbv zeta. rewrite handler_log_lines. repeat split.
  - intros v Hb -> Hv Hne Ho. cbn [handler_switch fst snd].
    rewrite (logfile_set b d _ v Hb Hv Hne), Ho, arg_Debug. reflexivity.
  - intros v Hv Ho. rewrite (logfile_closed b d _ v Hv Ho).
    now destruct type.
  - apply handler_apart_from_log; assumption.
  - apply handler_apart_from_log; assumption.
  - apply handler_apart_from_log; assumption.
  - apply handler_apart_from_log; assumption.
  - intros H. rewrite (logfile_unset b d _ H). now destruct type.
  - intros Hb. unfold handler_logfile. rewrite Hb. now destruct type.
  - now intros ->.
Qed.

End Handler.

(** ** Runs *)

Lemma bind_normal {A B} (t : Trace) (a : A) (f : A -> Run B) :
  bind (t, Normal a) f = (t ++ fst (f a), snd (f a)).
Proof. simpl. now destruct (f a). Qed.

Lemma bind_gives {A B} (m : Run A) (a : A) (f : A -> Run B) :
  snd m = Normal a -> bind m f = (fst m ++ fst (f a), snd (f a)).
Proof. destruct m as [t r]. simpl. intros ->. now destruct (f a). Qed.

Lemma bind_thrown {A B} (m : Run A) (e : Exception) (f : A -> Run B) :
  snd m = Thrown e -> bind m f = (fst m, Thrown e).
Proof. destruct m as [t r]. simpl. now intros ->. Qed.

Lemma call_returns {A} (p : Process) (e : Event) (v : A) :
  throws p e = None -> call p e v = ([e], Normal v).
Proof. unfold call. now intros ->. Qed.

Lemma bind_assoc {A B C} (m : Run A) (g : A -> Run B) (f : B -> Run C) :
  bind (bind m g) f = bind m (fun a => bind (g a) f).
Proof.
  destruct m as [t [a|e]]; [|reflexivity]. cbn [bind].
  destruct (g a) as [t' [b|e']]; cbn [bind]; [|reflexivity].
  destruct (f b) as [t'' r]. now rewrite app_assoc.
Qed.

Lemma bind_ret_l {A B} (a : A) (f : A -> Run B) : bind (ret a) f = f a.
Proof. unfold ret. cbn [bind]. now destruct (f a). Qed.

(** Rewriting a block call by call when no call throws. *)
Ltac quiet_calls Hq :=
  repeat (first [ rewrite (call_returns _ _ _ (Hq _))
                | rewrite bind_normal
                | rewrite bind_assoc
                | rewrite bind_ret_l ];
          cbv beta; cbn [fst snd]).

(** *** Every event of a run satisfies [P] *)

Lemma traced_ret P {A} (a : A) : traced P (ret a).
Proof. constructor. Qed.

Lemma traced_call P {A} p e (v : A) : P e -> traced P (call p e v).
Proof.
  intros H. unfold traced, call.
  destruct (throws p e); simpl; auto.
Qed.

Lemma traced_bind P {A B} (m : Run A) (f : A -> Run B) :
  traced P m -> (forall a, traced P (f a)) -> traced P (bind m f).
Proof.
  unfold traced. destruct m as [t [a|e]]; simpl; intros Hm Hf; [|exact Hm].
  specialize (Hf a). destruct (f a). simpl in *.
  apply Forall_app. now split.
Qed.

Lemma traced_when P c m : traced P m -> traced P (when c m).
Proof. destruct c; [auto | intros _; apply traced_ret]. Qed.

Ltac traced_step :=
  lazymatch goal with
  | |- traced _ (bind _ _) => apply traced_bind; [| intros ?]
  | |- traced _ (call _ _ _) => apply traced_call; reflexivity
  | |- traced _ (call_ _ _) => apply traced_call; reflexivity
  | |- traced _ (ret _) => apply traced_ret
  | |- traced _ (when _ _) => apply traced_when
  | |- traced _ (if ?c then _ else _) => destruct c
  end.

(** *** A run that ends normally *)

Lemma finishes_ret {A} (a : A) : finishes (ret a).
Proof. now exists a. Qed.

Lemma finishes_call {A} p e (v : A) : quiet p -> finishes (call p e v).
Proof. intros Hq. exists v. now rewrite call_returns. Qed.

Lemma finishes_bind {A B} (m : Run A) (f : A -> Run B) :
  finishes m -> (forall a, finishes (f a)) -> finishes (bind m f).
Proof.
  intros [a Ha] Hf. destruct (Hf a) as [b Hb]. exists b.
  now rewrite (bind_gives m a f Ha).
Qed.

Lemma finishes_when c m : finishes m -> finishes (when c m).
Proof. destruct c; [auto | intros _; apply finishes_ret]. Qed.

Lemma finishes_unit (m : Run unit) : finishes m -> snd m = Normal tt.
Proof. intros [[] H]. exact H. Qed.

Ltac finishes_step Hq :=
  lazymatch goal with
  | |- finishes (bind _ _) => apply finishes_bind; [| intros ?]
  | |- finishes (call _ _ _) => apply finishes_call; exact Hq
  | |- finishes (call_ _ _) => apply finishes_call; exact Hq
  | |- finishes (ret _) => apply finishes_ret
  | |- finishes (when _ _) => apply finishes_when
  | |- finishes (if ?c then _ else _) => destruct c
  end.

(** *** A run and the same run with no call throwing *)

Lemma cut_short_ret {A} (a : A) : cut_short (ret a) (ret a).
Proof. exists a. split; [reflexivity | now left]. Qed.

Lemma cut_short_call {A} p e (v : A) :
  cut_short (call p e v) (call (calm p) e v).
Proof.
  exists v. split; [reflexivity|]. unfold call. simpl.
  destruct (throws p e) as [x|]; [right | now left].
  exists x, [e]. now split.
Qed.

Lemma cut_short_bind {A B} (m m0 : Run A) (f f0 : A -> Run B) :
  cut_short m m0 -> (forall a, cut_short (f a) (f0 a)) ->
  cut_short (bind m f) (bind m0 f0).
Proof.
  intros [a [Ha Hm]] Hf. destruct (Hf a) as [b [Hb Hfa]]. exists b.
  rewrite (bind_gives m0 a f0 Ha). split; [exact Hb|].
  destruct Hm as [-> | [e [rest [He Hrest]]]].
  - rewrite (bind_gives m0 a f Ha).
    destruct Hfa as [-> | [e [rest [He Hrest]]]]; [now left | right].
    exists e, rest. simpl. split; [exact He|].
    now rewrite Hrest, app_assoc.
  - right. rewrite (bind_thrown m e f He). simpl.
    exists e, (rest ++ fst (f0 a)). split; [reflexivity|].
    now rewrite Hrest, app_assoc.
Qed.

Lemma cut_short_when c m m0 :
  cut_short m m0 -> cut_short (when c m) (when c m0).
Proof. destruct c; [auto | intros _; apply cut_short_ret]. Qed.

Ltac cut_short_step :=
  lazymatch goal with
  | |- cut_short (bind _ _) (bind _ _) => apply cut_short_bind; [| intros ?]
  | |- cut_short (call _ _ _) (call _ _ _) => apply cut_short_call
  | |- cut_short (call_ _ _) (call_ _ _) => apply cut_short_call
  | |- cut_short (ret _) (ret _) => apply cut_short_ret
  | |- cut_short (when _ _) (when _ _) => apply cut_short_when
  | |- cut_short (if ?c then _ else _) (if ?c then _ else _) => destruct c
  end.

(** ** The translators *)


Section Resolver.

Variable p : Process.
Variable name : QString.

Hypothesis probes_return : forall path, throws p (QDir_exists path) = None.
Hypothesis qtbase_loads_return :
  forall path, throws p (QTranslator_load qtbaseTranslator name path) = None.
Hypothesis sigil_loads_return :
  forall path, throws p (QTranslator_load sigilTranslator name path) = None.

(** One turn of the first loop. *)
Lemma qtbase_loop_cons path rest :
  qtbase_loop p name (path :: rest) =
  if dir_exists p path then
    if translation_loads p name path then
      ([QDir_exists path; QTranslator_load qtbaseTranslator name path],
       Normal true)
    else
      (QDir_exists path :: QTranslator_load qtbaseTranslator name path ::
         fst (qtbase_loop p name rest),
       snd (qtbase_loop p name rest))
  else (QDir_exists path :: fst (qtbase_loop p name rest),
        snd (qtbase_loop p name rest)).
Proof.
  cbn [qtbase_loop].
  rewrite (call_returns p _ _ (probes_return path)), bind_normal.
  destruct (dir_exists p path); [|reflexivity].
  rewrite (call_returns p _ _ (qtbase_loads_return path)), bind_normal.
  now destruct (translation_loads p name path).
Qed.

Lemma sigil_loop_cons path rest :
  sigil_loop p name (path :: rest) =
  if dir_exists p path then
    if translation_loads p name path then
      ([QDir_exists path; QTranslator_load sigilTranslator name path],
       Normal true)
    else
      (QDir_exists path :: QTranslator_load sigilTranslator name path ::
         fst (sigil_loop p name rest),
       snd (sigil_loop p name rest))
  else (QDir_exists path :: fst (sigil_loop p name rest),
        snd (sigil_loop p name rest)).
Proof.
  cbn [sigil_loop].
  rewrite (call_returns p _ _ (probes_return path)), bind_normal.
  destruct (dir_exists p path); [|reflexivity].
  rewrite (call_returns p _ _ (sigil_loads_return path)), bind_normal.
  now destruct (translation_loads p name path).
Qed.

End Resolver.

Lemma qtbase_loop_found p name paths :
  (forall path, throws p (QDir_exists path) = None) ->
  (forall path, throws p (QTranslator_load qtbaseTranslator name path) = None) ->
  forall k dir,
    nth_error paths k = Some dir ->
    dir_exists p dir = true -> translation_loads p name dir = true ->
    (forall j d, (j < k)%nat -> nth_error paths j = Some d ->
                 (dir_exists p d && translation_loads p name d)%bool = false) ->
    snd (qtbase_loop p name paths) = Normal true /\
    probed (fst (qtbase_loop p name paths)) = firstn (S k) paths /\
    load_attempts (fst (qtbase_loop p name paths)) =
      map (fun d => (qtbaseTranslator, name, d))
        (filter (dir_exists p) (firstn k paths) ++ [dir]).
Proof.
  intros Hp Hl. induction paths as [|path rest IH]; intros k dir Hk He Ht Hbefore.
  - destruct k; discriminate.
  - rewrite (qtbase_loop_cons p name Hp Hl). destruct k as [|k].
    + injection Hk as ->. rewrite He, Ht. repeat split.
    + specialize (Hbefore 0%nat path (Nat.lt_0_succ k) eq_refl) as H0.
      assert (Hrest : forall j d, (j < k)%nat -> nth_error rest j = Some d ->
                (dir_exists p d && translation_loads p name d)%bool = false).
      { intros j d Hj Hd. apply (Hbefore (S j) d); [lia | exact Hd]. }
      destruct (IH k dir Hk He Ht Hrest) as [Hs [Hpr Hla]].
      change (firstn (S (S k)) (path :: rest)) with (path :: firstn (S k) rest).
      change (firstn (S k) (path :: rest)) with (path :: firstn k rest).
      cbn [filter].
      destruct (dir_exists p path); cbn [andb] in H0.
      * rewrite H0. cbn [fst snd]. repeat split; [exact Hs | |].
        -- unfold probed in *. cbn [flat_map app]. now rewrite Hpr.
        -- unfold load_attempts in *. cbn [flat_map app map]. now rewrite Hla.
      * cbn [fst snd]. repeat split; [exact Hs | | exact Hla].
        unfold probed in *. cbn [flat_map app]. now rewrite Hpr.
Qed.

Lemma qtbase_loop_not_found p name paths :
  (forall path, throws p (QDir_exists path) = None) ->
  (forall path, throws p (QTranslator_load qtbaseTranslator name path) = None) ->
  (forall d, In d paths ->
             (dir_exists p d && translation_loads p name d)%bool = false) ->
  snd (qtbase_loop p name paths) = Normal false /\
  probed (fst (qtbase_loop p name paths)) = paths /\
  load_attempts (fst (qtbase_loop p name paths)) =
    map (fun d => (qtbaseTranslator, name, d)) (filter (dir_exists p) paths).
Proof.
  intros Hp Hl. induction paths as [|path rest IH]; intros Hnone.
  - repeat split.
  - rewrite (qtbase_loop_cons p name Hp Hl).
    pose proof (Hnone path (or_introl eq_refl)) as H0.
    destruct IH as [Hs [Hpr Hla]].
    { intros d Hd. apply Hnone. now right. }
    cbn [filter].
    destruct (dir_exists p path); cbn [andb] in H0.
    + rewrite H0. cbn [fst snd]. repeat split; [exact Hs | |].
      * unfold probed in *. cbn [flat_map app]. now rewrite Hpr.
      * unfold load_attempts in *. cbn [flat_map app map]. now rewrite Hla.
    + cbn [fst snd]. repeat split; [exact Hs | | exact Hla].
      unfold probed in *. cbn [flat_map app]. now rewrite Hpr.
Qed.

Lemma qtbase_loop_events p name paths :
  forallb resolver_event (fst (qtbase_loop p name paths)) = true.
Proof.
  apply forallb_forall. apply Forall_forall.
  change (traced (fun e => resolver_event e = true) (qtbase_loop p name paths)).
  induction paths as [|path rest IH]; cbn [qtbase_loop];
    repeat traced_step; exact IH.
Qed.

(** C2. Where directory [k] of the list is the first that exists and
    loads, the loop loads from it and leaves by [break]: it has probed
    the directories up to [k] and no other, and has tried to load from
    those of them that exist, in list order, with repetitions kept.
    Where no directory exists and loads, the loop ends with nothing
    loaded, having probed every directory and tried those that exist.
    Either way it ends normally, and all it does is probe and try to
    load. *)
Theorem first_loadable_directory_wins p name paths :
  (forall path, throws p (QDir_exists path) = None) ->
  (forall path, throws p (QTranslator_load qtbaseTranslator name path) = None) ->
  let r := qtbase_loop p name paths in
  (forall k dir,
      nth_error paths k = Some dir ->
      dir_exists p dir = true -> translation_loads p name dir = true ->
      (forall j d, (j < k)%nat -> nth_error paths j = Some d ->
                   (dir_exists p d && translation_loads p name d)%bool = false) ->
      snd r = Normal true /\
      probed (fst r) = firstn (S k) paths /\
      load_attempts (fst r) =
        map (fun d => (qtbaseTranslator, name, d))
          (filter (dir_exists p) (firstn k paths) ++ [dir]))
  /\
  ((forall d, In d paths ->
              (dir_exists p d && translation_loads p name d)%bool = false) ->
   snd r = Normal false /\
   probed (fst r) = paths /\
   load_attempts (fst r) =
     map (fun d => (qtbaseTranslator, name, d)) (filter (dir_exists p) paths))
  /\
  forallb resolver_event (fst r) = true.
Proof.
  intros Hp Hl. cbv zeta. split; [|split].
  - intros k dir. now apply qtbase_loop_found.
  - now apply qtbase_loop_not_found.
  - apply qtbase_loop_events.
Qed.

(** A loop that left by [break] has tried at least one directory. *)
Lemma qtbase_loop_break_tried p name paths :
  (forall path, throws p (QDir_exists path) = None) ->
  (forall path, throws p (QTranslator_load qtbaseTranslator name path) = None) ->
  snd (qtbase_loop p name paths) = Normal true ->
  load_attempts (fst (qtbase_loop p name paths)) <> [].
Proof.
  intros Hp Hl. induction paths as [|path rest IH].
  - discriminate.
  - rewrite (qtbase_loop_cons p name Hp Hl).
    destruct (dir_exists p path); [|exact IH].
    destruct (translation_loads p name path); discriminate.
Qed.

Lemma qtbase_loop_resolution p name paths :
  (forall path, throws p (QDir_exists path) = None) ->
  (forall path, throws p (QTranslator_load qtbaseTranslator name path) = None) ->
  resolution (qtbase_loop p name paths) =
  ResourceResolver_spec (dir_exists p) (translation_loads p name) paths.
Proof.
  intros Hp Hl. unfold ResourceResolver_spec.
  induction paths as [|path rest IH]; [reflexivity|].
  pose proof (qtbase_loop_break_tried p name rest Hp Hl) as Htried.
  rewrite (qtbase_loop_cons p name Hp Hl). cbn [filter].
  destruct (dir_exists p path); cbn [try_in_order].
  - destruct (translation_loads p name path); [reflexivity|].
    rewrite <- IH. unfold resolution in *. cbn [fst snd] in *.
    unfold load_attempts in *. cbn [flat_map app map snd] in *.
    destruct (snd (qtbase_loop p name rest)) as [[|]|]; try reflexivity.
    destruct (flat_map _ (fst (qtbase_loop p name rest))); [|reflexivity].
    now elim Htried.
  - rewrite <- IH. reflexivity.
Qed.

(** The second loop does what the first does, on its own translator. *)
Lemma sigil_loop_as_qtbase_loop p name paths :
  (forall path, throws p (QDir_exists path) = None) ->
  (forall path, throws p (QTranslator_load qtbaseTranslator name path) = None) ->
  (forall path, throws p (QTranslator_load sigilTranslator name path) = None) ->
  sigil_loop p name paths =
  (map (with_translator sigilTranslator) (fst (qtbase_loop p name paths)),
   snd (qtbase_loop p name paths)).
Proof.
  intros Hp Hq Hs. induction paths as [|path rest IH]; [reflexivity|].
  rewrite (qtbase_loop_cons p name Hp Hq), (sigil_loop_cons p name Hp Hs), IH.
  destruct (dir_exists p path); [|reflexivity].
  now destruct (translation_loads p name path).
Qed.

Lemma resolution_with_translator tr (r : Run bool) :
  resolution (map (with_translator tr) (fst r), snd r) = resolution r.
Proof.
  unfold resolution. cbn [fst snd].
  assert (H : map snd (load_attempts (map (with_translator tr) (fst r))) =
              map snd (load_attempts (fst r))).
  { induction (fst r) as [|e t IH]; [reflexivity|].
    unfold load_attempts in *. cbn [map flat_map]. rewrite !map_app, IH.
    now destruct e. }
  now rewrite H.
Qed.

(** C9. The two loops of [main] are the one resolver of the
    specification, applied by each to the name it is given: for the
    same name, list and file system they try the same directories in
    the same order and load from the same one, and the second loop's
    calls are the first loop's with the other translator in place. *)
Theorem one_resolver_for_both_translators p name paths :
  (forall path, throws p (QDir_exists path) = None) ->
  (forall path, throws p (QTranslator_load qtbaseTranslator name path) = None) ->
  (forall path, throws p (QTranslator_load sigilTranslator name path) = None) ->
  resolution (qtbase_loop p name paths) =
    ResourceResolver_spec (dir_exists p) (translation_loads p name) paths /\
  resolution (sigil_loop p name paths) =
    ResourceResolver_spec (dir_exists p) (translation_loads p name) paths /\
  sigil_loop p name paths =
    (map (with_translator sigilTranslator) (fst (qtbase_loop p name paths)),
     snd (qtbase_loop p name paths)).
Proof.
  intros Hp Hq Hs.
  pose proof (sigil_loop_as_qtbase_loop p name paths Hp Hq Hs) as E.
  repeat split; [| | exact E].
  - now apply qtbase_loop_resolution.
  - rewrite E, resolution_with_translator.
    now apply qtbase_loop_resolution.
Qed.

(** ** Start-up *)

Ltac calm_answers :=
  cbn [calm build throws qVersion_suffices SIGIL_VERSION app_startDragDistance
       epython_embeddedRoot PluginDB_launcherRoot settings_uiLanguage
       PossibleTranslationPaths dir_exists translation_loads PrefsDir
       info_exists info_isFile info_isReadable file_text env_is_set arguments
       filter_initialFilePath absolute SigilScratchpad file_readable
       exec_returns].


Lemma calm_quiet p : quiet (calm p).
Proof. intros e. reflexivity. Qed.

(** *** The blocks before the dispatch only make start-up calls *)


Lemma qtbase_loop_startup p name paths :
  traced startup_call (qtbase_loop p name paths).
Proof.
  induction paths as [|path rest IH]; cbn [qtbase_loop];
    repeat traced_step; exact IH.
Qed.

Lemma sigil_loop_startup p name paths :
  traced startup_call (sigil_loop p name paths).
Proof.
  induction paths as [|path rest IH]; cbn [sigil_loop];
    repeat traced_step; exact IH.
Qed.

Lemma before_try_startup p : traced startup_call (before_try p).
Proof. unfold before_try. cbv zeta. repeat traced_step. Qed.

Lemma install_translations_startup p :
  traced startup_call (install_translations p).
Proof.
  unfold install_translations. cbv zeta.
  repeat first [apply qtbase_loop_startup | apply sigil_loop_startup
               | traced_step].
Qed.

Lemma apply_stylesheet_startup p : traced startup_call (apply_stylesheet p).
Proof. unfold apply_stylesheet. cbv zeta. repeat traced_step. Qed.

Lemma finish_setup_startup p : traced startup_call (finish_setup p).
Proof.
  unfold finish_setup, GetApplicationIcon. cbv zeta. repeat traced_step.
Qed.

Lemma read_arguments_startup p : traced startup_call (read_arguments p).
Proof. unfold read_arguments. repeat traced_step. Qed.

(** *** When no call throws, every block ends normally *)

Lemma qtbase_loop_finishes p name paths :
  quiet p -> finishes (qtbase_loop p name paths).
Proof.
  intros Hq. induction paths as [|path rest IH]; cbn [qtbase_loop];
    repeat finishes_step Hq; exact IH.
Qed.

Lemma sigil_loop_finishes p name paths :
  quiet p -> finishes (sigil_loop p name paths).
Proof.
  intros Hq. induction paths as [|path rest IH]; cbn [sigil_loop];
    repeat finishes_step Hq; exact IH.
Qed.

Lemma before_try_finishes p : quiet p -> snd (before_try p) = Normal tt.
Proof.
  intros Hq. apply finishes_unit. unfold before_try. cbv zeta.
  repeat finishes_step Hq.
Qed.

Lemma install_translations_finishes p :
  quiet p -> snd (install_translations p) = Normal tt.
Proof.
  intros Hq. apply finishes_unit. unfold install_translations. cbv zeta.
  repeat first [apply (qtbase_loop_finishes _ _ _ Hq)
               | apply (sigil_loop_finishes _ _ _ Hq)
               | finishes_step Hq].
Qed.

Lemma apply_stylesheet_finishes p :
  quiet p -> snd (apply_stylesheet p) = Normal tt.
Proof.
  intros Hq. apply finishes_unit. unfold apply_stylesheet. cbv zeta.
  repeat finishes_step Hq.
Qed.

Lemma finish_setup_finishes p : quiet p -> snd (finish_setup p) = Normal tt.
Proof.
  intros Hq. apply finishes_unit. unfold finish_setup, GetApplicationIcon.
  cbv zeta. repeat finishes_step Hq.
Qed.

Lemma mac_menubar_finishes p : quiet p -> snd (mac_menubar p) = Normal tt.
Proof.
  intros Hq. apply finishes_unit. unfold mac_menubar.
  repeat finishes_step Hq.
Qed.

(** The list [main] goes on with. *)
Lemma read_arguments_gives p :
  quiet p -> snd (read_arguments p) = Normal (effective_arguments p).
Proof.
  intros Hq. unfold read_arguments, effective_arguments, call_.
  rewrite (call_returns p _ _ (Hq _)), bind_normal.
  destruct (Q_OS_MAC (build p)); [|reflexivity]. cbn [andb snd].
  rewrite (call_returns p _ _ (Hq _)), bind_normal. cbn [snd].
  rewrite (call_returns p _ _ (Hq _)), bind_normal. cbn [snd].
  destruct (_ && _)%bool; [|reflexivity].
  now rewrite (call_returns p _ _ (Hq _)), bind_normal.
Qed.

(** *** The calls of each block when no call throws *)

Lemma before_try_quiet_calls p :
  quiet p ->
  fst (before_try p) =
  (if QT_DEBUG (build p) then [] else [qInstallMessageHandler]) ++
  [setOrganizationName "sigil-ebook"; setOrganizationDomain "sigil-ebook.com";
   setApplicationName "sigil"; setApplicationVersion (SIGIL_VERSION p)] ++
  (if 0x050900 <=? QT_VERSION (build p)
   then [setAttribute_AA_DisableShaderDiskCache] else []) ++
  [MainApplication_new; startDragDistance] ++
  (if app_startDragDistance p <? 50 then [setStartDragDistance 50] else []) ++
  [EmbeddedPython_instance; embeddedRoot;
   addToPythonSysPath (epython_embeddedRoot p); launcherRoot;
   addToPythonSysPath (PluginDB_launcherRoot p +++ "/python")].
Proof.
  intros Hq. unfold before_try, call_, when. cbv zeta.
  destruct (QT_DEBUG (build p)); cbn [negb];
    destruct (0x050900 <=? QT_VERSION (build p));
    destruct (app_startDragDistance p <? 50) eqn:E;
    quiet_calls Hq; rewrite E; quiet_calls Hq; reflexivity.
Qed.

Lemma install_translations_quiet_calls p :
  quiet p ->
  fst (install_translations p) =
  [addLibraryPath "codecs"; addLibraryPath "iconengines";
   addLibraryPath "imageformats"; codecForName "utf8"; setCodecForLocale;
   SettingsStore_new; uiLanguage; GetPossibleTranslationPaths] ++
  fst (qtbase_loop p (arg "qtbase_%1" (settings_uiLanguage p))
         (PossibleTranslationPaths p)) ++
  [installTranslator qtbaseTranslator; uiLanguage;
   GetPossibleTranslationPaths] ++
  fst (sigil_loop p (arg "sigil_%1" (settings_uiLanguage p))
         (PossibleTranslationPaths p)) ++
  [installTranslator sigilTranslator].
Proof.
  intros Hq. unfold install_translations, call_. quiet_calls Hq.
  destruct (qtbase_loop_finishes p (arg "qtbase_%1" (settings_uiLanguage p))
              (PossibleTranslationPaths p) Hq) as [b1 H1].
  rewrite (bind_gives _ b1 _ H1). quiet_calls Hq.
  destruct (sigil_loop_finishes p (arg "sigil_%1" (settings_uiLanguage p))
              (PossibleTranslationPaths p) Hq) as [b2 H2].
  rewrite (bind_gives _ b2 _ H2). quiet_calls Hq.
  cbn [fst snd app]. rewrite <- ?app_assoc. reflexivity.
Qed.

Lemma apply_stylesheet_quiet_calls p :
  quiet p ->
  fst (apply_stylesheet p) =
  [DefinePrefsDir; QFileInfo_new (PrefsDir p +++ "/qt_styles.qss");
   QFileInfo_exists (PrefsDir p +++ "/qt_styles.qss")] ++
  (if info_exists p (PrefsDir p +++ "/qt_styles.qss") then
     QFileInfo_isFile (PrefsDir p +++ "/qt_styles.qss") ::
     (if info_isFile p (PrefsDir p +++ "/qt_styles.qss") then
        QFileInfo_isReadable (PrefsDir p +++ "/qt_styles.qss") ::
        (if info_isReadable p (PrefsDir p +++ "/qt_styles.qss") then
           [ReadUnicodeTextFile (PrefsDir p +++ "/qt_styles.qss");
            setStyleSheet (file_text p (PrefsDir p +++ "/qt_styles.qss"))]
         else [])
      else [])
   else []).
Proof.
  intros Hq. unfold apply_stylesheet, call_, when. cbv zeta.
  quiet_calls Hq.
  destruct (info_exists p _); quiet_calls Hq; [|reflexivity].
  destruct (info_isFile p _); quiet_calls Hq; [|reflexivity].
  destruct (info_isReadable p _); quiet_calls Hq; reflexivity.
Qed.

Lemma finish_setup_quiet_calls p :
  quiet p ->
  fst (finish_setup p) =
  (if env_is_set p "SIGIL_DISABLE_CURSOR_BLINK"
   then [setCursorFlashTime 0] else []) ++
  (if (negb (Q_OS_WIN32 (build p)) && negb (Q_OS_MAC (build p)))%bool then
     [QIcon_addFile ":/icon/app_icon_32.png" 32;
      QIcon_addFile ":/icon/app_icon_48.png" 48;
      QIcon_addFile ":/icon/app_icon_128.png" 128;
      QIcon_addFile ":/icon/app_icon_256.png" 256;
      QIcon_addFile ":/icon/app_icon_512.png" 512; setWindowIcon] ++
     (if 0x050700 <=? QT_VERSION (build p)
      then [setDesktopFileName "sigil.desktop"] else [])
   else []) ++
  (if HAIKU (build p) then [] else [UpdateChecker_new; CheckForUpdate]) ++
  [AppEventFilter_new; installEventFilter].
Proof.
  intros Hq. unfold finish_setup, GetApplicationIcon, call_, when. cbv zeta.
  destruct (env_is_set p _);
    destruct (negb (Q_OS_WIN32 (build p)) && negb (Q_OS_MAC (build p)))%bool;
    destruct (0x050700 <=? QT_VERSION (build p));
    destruct (HAIKU (build p)); cbn [negb];
    quiet_calls Hq; reflexivity.
Qed.

Lemma read_arguments_quiet_calls p :
  quiet p ->
  fst (read_arguments p) =
  QCoreApplication_arguments ::
  (if Q_OS_MAC (build p) then
     [processEvents; getInitialFilePath] ++
     (if ((Z.of_nat (length (arguments p)) =? 1)
          && negb (String.eqb (filter_initialFilePath p) EmptyString))%bool
      then [absoluteFilePath (filter_initialFilePath p)] else [])
   else []).
Proof.
  intros Hq. unfold read_arguments, call_. quiet_calls Hq.
  destruct (Q_OS_MAC (build p)); quiet_calls Hq; [|reflexivity].
  destruct (_ && _)%bool; quiet_calls Hq; reflexivity.
Qed.

(** *** The plugin scan and the main window *)


Lemma startup_call_no_main_window e : startup_call e -> no_main_window e.
Proof.
  unfold startup_call, no_main_window, past_dispatch, window_event.
  destruct e; simpl; congruence.
Qed.

Lemma scan_precedes_seen t : scan_precedes true t = true.
Proof.
  induction t as [|e t IH]; [reflexivity|]. cbn [scan_precedes].
  destruct (main_window_event e); cbn [orb andb]; exact IH.
Qed.

Lemma scan_precedes_mono t seen :
  scan_precedes false t = true -> scan_precedes seen t = true.
Proof.
  destruct seen; [intros _; apply scan_precedes_seen | auto].
Qed.

Lemma scan_precedes_clean t seen :
  Forall no_main_window t -> scan_precedes seen t = true.
Proof.
  intros H. revert seen. induction H as [|e t He _ IH]; intros seen.
  - reflexivity.
  - cbn [scan_precedes]. rewrite He. apply IH.
Qed.

Lemma scan_precedes_app_clean t t' seen :
  Forall no_main_window t -> scan_precedes false t' = true ->
  scan_precedes seen (t ++ t') = true.
Proof.
  intros H Ht'. revert seen. induction H as [|e t He _ IH]; intros seen.
  - now apply scan_precedes_mono.
  - cbn [app scan_precedes]. rewrite He. apply IH.
Qed.

Lemma scan_precedes_app_clean_r t t' seen :
  scan_precedes seen t = true -> Forall no_main_window t' ->
  scan_precedes seen (t ++ t') = true.
Proof.
  revert seen. induction t as [|e t IH]; intros seen Ht Ht'.
  - now apply scan_precedes_clean.
  - cbn [app scan_precedes] in *. destruct (main_window_event e).
    + apply andb_true_iff in Ht as [-> Ht]. cbn [andb]. now apply IH.
    + now apply IH.
Qed.

Lemma VerifyPlugins_cases p :
  VerifyPlugins p = ([PluginDB_instance; load_plugins_from_disk], Normal tt) \/
  exists t e, VerifyPlugins p = (t, Thrown e) /\ Forall no_main_window t.
Proof.
  unfold VerifyPlugins, call_, call.
  destruct (throws p PluginDB_instance) as [e|].
  - right. exists [], e. now split.
  - destruct (throws p load_plugins_from_disk) as [e|].
    + right. exists [PluginDB_instance], e. split; [reflexivity|].
      now repeat constructor.
    + now left.
Qed.

Lemma scan_precedes_sound t seen :
  scan_precedes seen t = true ->
  forall before e after,
    t = before ++ e :: after -> main_window_event e = true ->
    seen = true \/ In load_plugins_from_disk before.
Proof.
  revert seen. induction t as [|x t IH]; intros seen Hs before e after Ht He.
  - now destruct before.
  - destruct before as [|y before]; cbn [app] in Ht; injection Ht as <- ->.
    + cbn [scan_precedes] in Hs. rewrite He in Hs.
      apply andb_true_iff in Hs as [-> _]. now left.
    + cbn [scan_precedes] in Hs. destruct (main_window_event x).
      * apply andb_true_iff in Hs as [-> _]. now left.
      * destruct (IH _ Hs before e after eq_refl He) as [H | H].
        -- apply orb_true_iff in H as [-> | H]; [now left | right].
           destruct x; try discriminate. now left.
        -- right. now right.
Qed.

Lemma scan_precedes_verified t :
  scan_precedes false t = true -> verified_first t.
Proof.
  intros Hs before e after Ht He.
  destruct (scan_precedes_sound t false Hs before e after Ht He);
    [discriminate | assumption].
Qed.


Lemma scan_first_clean {A} (m : Run A) : traced no_main_window m -> scan_first m.
Proof. apply scan_precedes_clean. Qed.

Lemma scan_first_bind {A B} (m : Run A) (f : A -> Run B) :
  traced no_main_window m -> (forall a, scan_first (f a)) ->
  scan_first (bind m f).
Proof.
  unfold scan_first, traced. destruct m as [t [a|e]]; cbn [bind fst].
  - intros Hm Hf. specialize (Hf a). destruct (f a) as [t' r]. cbn [fst] in *.
    now apply scan_precedes_app_clean.
  - intros Hm _. now apply scan_precedes_clean.
Qed.

Lemma mac_menubar_no_main_window p :
  traced no_main_window (when (Q_OS_MAC (build p)) (mac_menubar p)).
Proof. unfold mac_menubar. repeat traced_step. Qed.

Lemma traced_startup_no_main_window {A} (m : Run A) :
  traced startup_call m -> traced no_main_window m.
Proof.
  unfold traced. intros H. eapply Forall_impl; [|exact H].
  apply startup_call_no_main_window.
Qed.

Lemma main_windows_app t t' :
  main_windows (t ++ t') = main_windows t ++ main_windows t'.
Proof. apply flat_map_app. Qed.

Lemma dialogs_app t t' : dialogs (t ++ t') = dialogs t ++ dialogs t'.
Proof. apply flat_map_app. Qed.

Lemma startup_prints_nothing t : Forall startup_call t -> stdout_lines t = [].
Proof.
  induction 1 as [|e t He _ IH]; [reflexivity|].
  unfold stdout_lines in *. cbn [flat_map]. rewrite IH.
  now destruct e.
Qed.

Lemma startup_constructs_no_window t :
  Forall startup_call t -> main_windows t = [].
Proof.
  induction 1 as [|e t He _ IH]; [reflexivity|].
  unfold main_windows in *. cbn [flat_map]. rewrite IH.
  now destruct e.
Qed.

Lemma startup_shows_no_dialog t : Forall startup_call t -> dialogs t = [].
Proof.
  induction 1 as [|e t He _ IH]; [reflexivity|].
  unfold dialogs in *. cbn [flat_map]. rewrite IH.
  now destruct e.
Qed.

Lemma startup_stays_before_dispatch t :
  Forall startup_call t ->
  forallb (fun e => negb (plugin_scan e || window_event e || is_exec e)) t
  = true.
Proof.
  induction 1 as [|e t He _ IH]; [reflexivity|].
  cbn [forallb]. rewrite IH, andb_true_r.
  unfold startup_call, past_dispatch in He.
  apply orb_false_iff in He as [He _].
  apply orb_false_iff in He as [He _]. now rewrite He.
Qed.

Lemma mac_menubar_quiet_calls p :
  main_windows (fst (when (Q_OS_MAC (build p)) (mac_menubar p))) = [] /\
  dialogs (fst (when (Q_OS_MAC (build p)) (mac_menubar p))) = [].
Proof.
  assert (H : traced (fun e => main_windows [e] = [] /\ dialogs [e] = [])
                (when (Q_OS_MAC (build p)) (mac_menubar p))).
  { unfold mac_menubar.
    repeat first [apply traced_call; now split | traced_step]. }
  unfold traced in H. induction H as [|e t [H1 H2] _ [IH1 IH2]]; [now split|].
  unfold main_windows, dialogs in *. cbn [flat_map] in *.
  rewrite app_nil_r in H1, H2. now rewrite H1, H2, IH1, IH2.
Qed.

(** *** A run is cut short by the first call that throws *)

Lemma qtbase_loop_cut_short p name paths :
  cut_short (qtbase_loop p name paths) (qtbase_loop (calm p) name paths).
Proof.
  induction paths as [|path rest IH]; cbn [qtbase_loop]; calm_answers;
    repeat cut_short_step; exact IH.
Qed.

Lemma sigil_loop_cut_short p name paths :
  cut_short (sigil_loop p name paths) (sigil_loop (calm p) name paths).
Proof.
  induction paths as [|path rest IH]; cbn [sigil_loop]; calm_answers;
    repeat cut_short_step; exact IH.
Qed.

Lemma before_try_cut_short p : cut_short (before_try p) (before_try (calm p)).
Proof.
  unfold before_try. cbv zeta. calm_answers. repeat cut_short_step.
Qed.

Lemma install_translations_cut_short p :
  cut_short (install_translations p) (install_translations (calm p)).
Proof.
  unfold install_translations. cbv zeta. calm_answers.
  repeat first [apply qtbase_loop_cut_short | apply sigil_loop_cut_short
               | cut_short_step].
Qed.

Lemma apply_stylesheet_cut_short p :
  cut_short (apply_stylesheet p) (apply_stylesheet (calm p)).
Proof.
  unfold apply_stylesheet. cbv zeta. calm_answers. repeat cut_short_step.
Qed.

Lemma finish_setup_cut_short p :
  cut_short (finish_setup p) (finish_setup (calm p)).
Proof.
  unfold finish_setup, GetApplicationIcon. cbv zeta. calm_answers.
  repeat cut_short_step.
Qed.

Lemma read_arguments_cut_short p :
  cut_short (read_arguments p) (read_arguments (calm p)).
Proof.
  unfold read_arguments. calm_answers. repeat cut_short_step.
Qed.

(** *** No block of [main] shows the error dialog *)


Lemma traced_startup_no_dialog {A} (m : Run A) :
  traced startup_call m -> traced no_dialog m.
Proof.
  unfold traced. intros H. eapply Forall_impl; [|exact H].
  unfold startup_call, no_dialog, past_dispatch. intros e He.
  apply orb_false_iff in He as [He _]. now apply orb_false_iff in He as [_ He].
Qed.

Lemma no_dialog_dialogs {A} (m : Run A) :
  traced no_dialog m -> dialogs (fst m) = [].
Proof.
  unfold traced. induction 1 as [|e t He _ IH]; [reflexivity|].
  unfold dialogs in *. cbn [flat_map]. rewrite IH. now destruct e.
Qed.

Section Startup.

Variable QString_of_chars : CString -> QString.
Variable toStdString : QString -> string.
Variable std_exception_what : CString.

Local Abbreviation dispatch_ := (dispatch toStdString).
Local Abbreviation try_block_ := (try_block toStdString).
Local Abbreviation main_ :=
  (main QString_of_chars toStdString std_exception_what).

Lemma dispatch_scan_first p args : scan_first (dispatch_ p args).
Proof.
  unfold dispatch. destruct (contains args "-t").
  - apply scan_first_clean. repeat traced_step.
  - apply scan_first_bind; [apply mac_menubar_no_main_window | intros _].
    destruct (VerifyPlugins_cases p) as [E | [t [e [E Ht]]]].
    + rewrite E, bind_normal. unfold scan_first. cbn [fst app scan_precedes].
      cbn [main_window_event orb]. apply scan_precedes_seen.
    + rewrite E. cbn [bind]. now apply scan_precedes_clean.
Qed.

Lemma try_block_scan_first p : scan_first (try_block_ p).
Proof.
  unfold try_block.
  apply scan_first_bind;
    [apply traced_startup_no_main_window, install_translations_startup
    | intros _].
  apply scan_first_bind;
    [apply traced_startup_no_main_window, apply_stylesheet_startup | intros _].
  apply scan_first_bind;
    [apply traced_startup_no_main_window, finish_setup_startup | intros _].
  apply scan_first_bind;
    [apply traced_startup_no_main_window, read_arguments_startup | intros a].
  apply dispatch_scan_first.
Qed.

Lemma main_scan_first p : scan_precedes false (fst (main_ p)) = true.
Proof.
  unfold main. destruct (qVersion_suffices p); [|reflexivity].
  pose proof (traced_startup_no_main_window _ (before_try_startup p)) as H0.
  pose proof (try_block_scan_first p) as H1.
  unfold traced, scan_first in *.
  destruct (before_try p) as [t0 [u|e]]; cbn [fst] in *.
  - destruct (try_block_ p) as [t [status|[what|]]]; cbn [fst] in *.
    + now apply scan_precedes_app_clean.
    + apply scan_precedes_app_clean; [exact H0|].
      apply scan_precedes_app_clean_r; [exact H1|].
      now repeat constructor.
    + now apply scan_precedes_app_clean.
  - now apply scan_precedes_clean.
Qed.

(** *** Runs in which no call throws *)

Lemma GetMainWindow_quiet p args :
  quiet p ->
  GetMainWindow p args =
  ((if Z.of_nat (length args) >? 1
    then [IsFileReadable (nth 1 args EmptyString)] else []) ++
   [MainWindow_new (initial_file_path p args)],
   Normal tt).
Proof.
  intros Hq. unfold GetMainWindow, call_.
  destruct (Z.of_nat (length args) >? 1) eqn:E.
  - destruct args as [|a0 [|a1 rest]]; try discriminate.
    cbn [nth initial_file_path].
    rewrite (call_returns p _ _ (Hq _)), bind_normal. cbn [ret fst snd app].
    rewrite bind_normal, (call_returns p _ _ (Hq _)). reflexivity.
  - assert (initial_file_path p args = EmptyString) as ->.
    { destruct args as [|a0 [|a1 rest]]; try reflexivity.
      cbn [length] in E. rewrite Z.gtb_ltb in E. apply Z.ltb_ge in E. lia. }
    unfold ret. rewrite bind_normal, (call_returns p _ _ (Hq _)). reflexivity.
Qed.

Lemma dispatch_query p args :
  quiet p -> contains args "-t" = true ->
  dispatch_ p args =
  ([GetPathToSigilScratchpad;
    std_cout (toStdString (SigilScratchpad p) +++ LF)],
   Normal 1).
Proof.
  intros Hq Ht. unfold dispatch, call_. rewrite Ht.
  rewrite (call_returns p _ _ (Hq _)), bind_normal.
  rewrite (call_returns p _ _ (Hq _)), bind_normal. reflexivity.
Qed.

Lemma dispatch_normal p args :
  quiet p -> contains args "-t" = false ->
  dispatch_ p args =
  (fst (when (Q_OS_MAC (build p)) (mac_menubar p)) ++
   [PluginDB_instance; load_plugins_from_disk] ++
   (if Z.of_nat (length args) >? 1
    then [IsFileReadable (nth 1 args EmptyString)] else []) ++
   [MainWindow_new (initial_file_path p args); MainWindow_show; app_exec],
   Normal (exec_returns p)).
Proof.
  intros Hq Ht. unfold dispatch. rewrite Ht.
  assert (Hm : snd (when (Q_OS_MAC (build p)) (mac_menubar p)) = Normal tt).
  { destruct (Q_OS_MAC (build p)); [now apply mac_menubar_finishes|reflexivity]. }
  rewrite (bind_gives _ tt _ Hm).
  unfold VerifyPlugins, call_.
  rewrite !(call_returns p _ _ (Hq _)), !bind_normal.
  rewrite (GetMainWindow_quiet p args Hq), !bind_normal.
  cbn [fst snd]. rewrite <- !app_assoc. reflexivity.
Qed.

Lemma try_block_quiet p :
  quiet p ->
  try_block_ p =
  (fst (install_translations p) ++ fst (apply_stylesheet p) ++
   fst (finish_setup p) ++ fst (read_arguments p) ++
   fst (dispatch_ p (effective_arguments p)),
   snd (dispatch_ p (effective_arguments p))).
Proof.
  intros Hq. unfold try_block.
  rewrite (bind_gives _ tt _ (install_translations_finishes p Hq)).
  rewrite (bind_gives _ tt _ (apply_stylesheet_finishes p Hq)).
  rewrite (bind_gives _ _ _ (finish_setup_finishes p Hq)).
  rewrite (bind_gives _ _ _ (read_arguments_gives p Hq)).
  reflexivity.
Qed.

Lemma main_quiet p t status :
  qVersion_suffices p = true -> quiet p ->
  dispatch_ p (effective_arguments p) = (t, Normal status) ->
  main_ p = (startup_trace p ++ t, exit_status status).
Proof.
  intros Hv Hq Hd. unfold main, startup_trace. rewrite Hv.
  pose proof (before_try_finishes p Hq) as H0.
  rewrite (try_block_quiet p Hq), Hd.
  destruct (before_try p) as [t0 r]. cbn [fst snd] in *. subst r.
  now rewrite <- !app_assoc.
Qed.

Lemma startup_trace_calls p : Forall startup_call (startup_trace p).
Proof.
  unfold startup_trace.
  apply Forall_app; split; [apply before_try_startup|].
  apply Forall_app; split; [apply install_translations_startup|].
  apply Forall_app; split; [apply apply_stylesheet_startup|].
  apply Forall_app; split; [apply finish_setup_startup|].
  apply read_arguments_startup.
Qed.

(** *** Exceptions *)

Lemma dispatch_cut_short p args :
  cut_short (dispatch_ p args) (dispatch_ (calm p) args).
Proof.
  unfold dispatch, VerifyPlugins, GetMainWindow, mac_menubar. calm_answers.
  repeat cut_short_step.
Qed.

Lemma try_block_cut_short p : cut_short (try_block_ p) (try_block_ (calm p)).
Proof.
  unfold try_block.
  apply cut_short_bind; [apply install_translations_cut_short | intros _].
  apply cut_short_bind; [apply apply_stylesheet_cut_short | intros _].
  apply cut_short_bind; [apply finish_setup_cut_short | intros _].
  apply cut_short_bind; [apply read_arguments_cut_short | intros a].
  apply dispatch_cut_short.
Qed.

Lemma dispatch_no_dialog p args : traced no_dialog (dispatch_ p args).
Proof.
  unfold dispatch, VerifyPlugins, GetMainWindow, mac_menubar.
  repeat traced_step.
Qed.

Lemma try_block_no_dialog p : dialogs (fst (try_block_ p)) = [].
Proof.
  apply no_dialog_dialogs. unfold try_block.
  apply traced_bind;
    [apply traced_startup_no_dialog, install_translations_startup | intros _].
  apply traced_bind;
    [apply traced_startup_no_dialog, apply_stylesheet_startup | intros _].
  apply traced_bind;
    [apply traced_startup_no_dialog, finish_setup_startup | intros _].
  apply traced_bind;
    [apply traced_startup_no_dialog, read_arguments_startup | intros a].
  apply dispatch_no_dialog.
Qed.

Lemma before_try_no_dialog p : dialogs (fst (before_try p)) = [].
Proof.
  apply no_dialog_dialogs, traced_startup_no_dialog, before_try_startup.
Qed.

(** Whatever throws, the calls [main] makes are the first calls of the
    run in which nothing throws, followed at most by the error dialog. *)
Lemma main_within_calm p :
  exists t rest,
    fst (main_ (calm p)) = t ++ rest /\
    (fst (main_ p) = t \/
     fst (main_ p) =
       t ++ [DisplayExceptionErrorDialog (QString_of_chars std_exception_what)]).
Proof.
  unfold main.
  change (qVersion_suffices (calm p)) with (qVersion_suffices p).
  destruct (qVersion_suffices p).
  2:{ exists [QMessageBox_critical_incompatible_Qt; qFatal], []. split.
      - reflexivity.
      - now left. }
  destruct (before_try_cut_short p) as [u [Hu [E0 | [e [rest [He Hrest]]]]]].
  - rewrite <- E0 in *.
    destruct (before_try p) as [t0 r]. cbn [fst snd] in *. subst r.
    destruct (try_block_cut_short p) as [a [Ha [E1 | [e [rest [He Hrest]]]]]].
    + rewrite <- E1 in *.
      destruct (try_block_ p) as [t r]. cbn [fst snd] in *. subst r.
      exists (t0 ++ t), []. split; [now rewrite app_nil_r | now left].
    + destruct (try_block_ (calm p)) as [t' r']. cbn [fst snd] in *. subst r'.
      destruct (try_block_ p) as [t r]. cbn [fst snd] in *. subst r t'.
      exists (t0 ++ t), rest. split; [now rewrite <- !app_assoc|].
      destruct e as [what|]; cbn [fst]; [right | now left].
      now rewrite <- !app_assoc.
  - destruct (before_try (calm p)) as [t0' r']. cbn [fst snd] in *. subst r'.
    destruct (before_try p) as [t0 r]. cbn [fst snd] in *. subst r t0'.
    destruct (try_block_ (calm p)) as [t' [status|[what|]]]; cbn [fst].
    + exists t0, (rest ++ t'). split; [now rewrite <- !app_assoc | now left].
    + exists t0, (rest ++ t' ++
                  [DisplayExceptionErrorDialog
                     (QString_of_chars std_exception_what)]).
      split; [now rewrite <- !app_assoc | now left].
    + exists t0, (rest ++ t'). split; [now rewrite <- !app_assoc | now left].
Qed.

(** The [-t] query when no call throws. *)
Lemma scratchpad_query_quiet p :
  qVersion_suffices p = true -> quiet p ->
  contains (arguments p) "-t" = true ->
  main_ p =
    (startup_trace p ++
     [GetPathToSigilScratchpad;
      std_cout (toStdString (SigilScratchpad p) +++ LF)],
     exit_status 1).
Proof.
  intros Hv Hq Ht.
  assert (Ht' : contains (effective_arguments p) "-t" = true).
  { unfold effective_arguments. destruct (_ && _)%bool; [|exact Ht].
    now apply contains_app_l. }
  apply (main_quiet p _ _ Hv Hq (dispatch_query p _ Hq Ht')).
Qed.

(** Normal start-up when no call throws. *)
Lemma normal_startup_quiet p :
  qVersion_suffices p = true -> quiet p ->
  contains (effective_arguments p) "-t" = false ->
  main_windows (fst (main_ p)) =
    [initial_file_path p (effective_arguments p)] /\
  dialogs (fst (main_ p)) = [] /\
  snd (main_ p) = exit_status (exec_returns p).
Proof.
  intros Hv Hq Ht.
  rewrite (main_quiet p _ _ Hv Hq (dispatch_normal p _ Hq Ht)).
  cbn [fst snd]. pose proof (startup_trace_calls p) as Hs.
  pose proof (mac_menubar_quiet_calls p) as Hm.
  rewrite !main_windows_app, !dialogs_app.
  rewrite (startup_constructs_no_window _ Hs), (startup_shows_no_dialog _ Hs).
  destruct Hm as [-> ->].
  repeat split; now destruct (_ >? _).
Qed.

(** Finding a call in a trace written out as lists appended. *)
Ltac in_calls :=
  solve [ apply in_eq
        | apply in_cons; in_calls
        | apply in_or_app; left; in_calls
        | apply in_or_app; right; in_calls ].

(** The start-up calls that are made in every run that gets as far as
    the test of the arguments, whatever the build. *)
Lemma startup_calls_made p :
  quiet p ->
  incl
    ((if QT_DEBUG (build p) then [] else [qInstallMessageHandler]) ++
     [setOrganizationName "sigil-ebook";
      setOrganizationDomain "sigil-ebook.com";
      setApplicationName "sigil"; setApplicationVersion (SIGIL_VERSION p);
      MainApplication_new; EmbeddedPython_instance;
      addToPythonSysPath (epython_embeddedRoot p);
      addToPythonSysPath (PluginDB_launcherRoot p +++ "/python");
      addLibraryPath "codecs"; addLibraryPath "iconengines";
      addLibraryPath "imageformats"; codecForName "utf8"; setCodecForLocale;
      SettingsStore_new; uiLanguage; GetPossibleTranslationPaths;
      installTranslator qtbaseTranslator; installTranslator sigilTranslator;
      DefinePrefsDir; QFileInfo_exists (PrefsDir p +++ "/qt_styles.qss")] ++
     (if HAIKU (build p) then [] else [UpdateChecker_new; CheckForUpdate]) ++
     [AppEventFilter_new; installEventFilter; QCoreApplication_arguments])
    (startup_trace p).
Proof.
  intros Hq e He. unfold startup_trace.
  rewrite (before_try_quiet_calls p Hq), (install_translations_quiet_calls p Hq),
    (apply_stylesheet_quiet_calls p Hq), (finish_setup_quiet_calls p Hq),
    (read_arguments_quiet_calls p Hq).
  destruct (QT_DEBUG (build p)); destruct (HAIKU (build p));
    cbn [app In] in He;
    repeat (destruct He as [<- | He]; [in_calls|]);
    destruct He.
Qed.

(** C3, as amended. With [-t] among the arguments [main] scans no
    plugins, constructs and shows no window, does not run the event loop
    and prints at most one line, whatever throws. When the Qt version
    check passes and no call throws, it has by then made the start-up
    calls that come before the test of the arguments: it has installed
    the message handler (release builds), set the organization and
    application data, constructed the application, extended the Python
    path twice, added the three library paths, set the codec, read the
    settings, looked for and installed both translators, looked for the
    style sheet, started the update check (except on Haiku), installed
    the event filter and read the arguments. It then asks for the
    scratchpad path, prints it as one line on standard output and
    returns 1, with no dialog shown. *)
Theorem scratchpad_query_after_startup p :
  contains (arguments p) "-t" = true ->
  (forallb (fun e => negb (plugin_scan e || window_event e || is_exec e))
     (fst (main_ p)) = true /\
   (length (stdout_lines (fst (main_ p))) <= 1)%nat)
  /\
  (qVersion_suffices p = true -> quiet p ->
   main_ p =
     (startup_trace p ++
      [GetPathToSigilScratchpad;
       std_cout (toStdString (SigilScratchpad p) +++ LF)],
      exit_status 1) /\
   incl
     ((if QT_DEBUG (build p) then [] else [qInstallMessageHandler]) ++
      [setOrganizationName "sigil-ebook";
       setOrganizationDomain "sigil-ebook.com";
       setApplicationName "sigil"; setApplicationVersion (SIGIL_VERSION p);
       MainApplication_new; EmbeddedPython_instance;
       addToPythonSysPath (epython_embeddedRoot p);
       addToPythonSysPath (PluginDB_launcherRoot p +++ "/python");
       addLibraryPath "codecs"; addLibraryPath "iconengines";
       addLibraryPath "imageformats"; codecForName "utf8"; setCodecForLocale;
       SettingsStore_new; uiLanguage; GetPossibleTranslationPaths;
       installTranslator qtbaseTranslator; installTranslator sigilTranslator;
       DefinePrefsDir; QFileInfo_exists (PrefsDir p +++ "/qt_styles.qss")] ++
      (if HAIKU (build p) then [] else [UpdateChecker_new; CheckForUpdate]) ++
      [AppEventFilter_new; installEventFilter; QCoreApplication_arguments])
     (startup_trace p) /\
   stdout_lines (fst (main_ p)) = [toStdString (SigilScratchpad p) +++ LF] /\
   dialogs (fst (main_ p)) = []).
Proof.
  intros Ht.
  assert (Hquiet : forall q,
             qVersion_suffices q = true -> quiet q ->
             contains (arguments q) "-t" = true ->
             forallb (fun e => negb (plugin_scan e || window_event e
                                     || is_exec e)) (fst (main_ q)) = true /\
             stdout_lines (fst (main_ q))
             = [toStdString (SigilScratchpad q) +++ LF] /\
             dialogs (fst (main_ q)) = []).
  { intros q Hv Hq Hq'. rewrite (scratchpad_query_quiet q Hv Hq Hq').
    cbn [fst]. pose proof (startup_trace_calls q) as Hs.
    rewrite forallb_app, (startup_stays_before_dispatch _ Hs).
    unfold stdout_lines. rewrite flat_map_app.
    fold (stdout_lines (startup_trace q)).
    rewrite (startup_prints_nothing _ Hs).
    rewrite dialogs_app, (startup_shows_no_dialog _ Hs).
    repeat split. }
  split.
  - assert (Hcalm :
        forallb (fun e => negb (plugin_scan e || window_event e || is_exec e))
          (fst (main_ (calm p))) = true /\
        (length (stdout_lines (fst (main_ (calm p)))) <= 1)%nat).
    { destruct (qVersion_suffices p) eqn:Hv.
      - destruct (Hquiet (calm p) Hv (calm_quiet p) Ht) as [H1 [H2 _]].
        split; [exact H1 | rewrite H2; cbn [length]; lia].
      - unfold main.
        change (qVersion_suffices (calm p)) with (qVersion_suffices p).
        rewrite Hv. split; [reflexivity | cbn; lia]. }
    destruct Hcalm as [Hc1 Hc2].
    destruct (main_within_calm p) as [t [rest [Ec Ep]]].
    rewrite Ec in Hc1, Hc2. rewrite forallb_app in Hc1.
    apply andb_true_iff in Hc1 as [Hc1 _].
    unfold stdout_lines in Hc2. rewrite flat_map_app, length_app in Hc2.
    fold (stdout_lines t) in Hc2.
    destruct Ep as [-> | ->].
    + split; [exact Hc1 | lia].
    + rewrite forallb_app, Hc1. split; [reflexivity|].
      unfold stdout_lines. rewrite flat_map_app, length_app.
      fold (stdout_lines t). cbn [flat_map length app]. lia.
  - intros Hv Hq. destruct (Hquiet p Hv Hq Ht) as [_ [H2 H3]].
    split; [now apply scratchpad_query_quiet|].
    split; [now apply startup_calls_made | now split].
Qed.

Lemma in_main_windows path t :
  In (MainWindow_new path) t -> In path (main_windows t).
Proof.
  intros H. unfold main_windows. apply in_flat_map.
  exists (MainWindow_new path). split; [exact H | now left].
Qed.

(** C6, as amended. Whenever [main] constructs the main window it hands
    it the first argument after the program name when that names a
    readable file, and the empty path when there is no such argument or
    the file is not readable. After a start-up in which no call throws
    and the arguments do not hold [-t], the main window is constructed
    once, in this way, and no dialog is shown. On macOS a command line
    without arguments takes the path of a FileOpen event received
    during start-up, made absolute, as that first argument. *)
Theorem main_window_initial_file_path p :
  (forall path,
      In (MainWindow_new path) (fst (main_ p)) ->
      path = initial_file_path p (effective_arguments p))
  /\
  (qVersion_suffices p = true -> quiet p ->
   (Q_OS_MAC (build p) = false \/ length (arguments p) <> 1%nat \/
    filter_initialFilePath p = EmptyString ->
    contains (arguments p) "-t" = false ->
    main_windows (fst (main_ p)) = [initial_file_path p (arguments p)] /\
    dialogs (fst (main_ p)) = [] /\
    snd (main_ p) = exit_status (exec_returns p))
   /\
   (forall program,
       Q_OS_MAC (build p) = true -> arguments p = [program] ->
       filter_initialFilePath p <> EmptyString ->
       contains [program; absolute p (filter_initialFilePath p)] "-t" = false ->
       main_windows (fst (main_ p)) =
         [if file_readable p (absolute p (filter_initialFilePath p))
          then absolute p (filter_initialFilePath p) else EmptyString] /\
       dialogs (fst (main_ p)) = [] /\
       snd (main_ p) = exit_status (exec_returns p))).
Proof.
  split.
  - intros path Hin.
    assert (Hc : In (MainWindow_new path) (fst (main_ (calm p)))).
    { destruct (main_within_calm p) as [t [rest [Ec Ep]]].
      rewrite Ec. apply in_or_app. left.
      destruct Ep as [E | E]; rewrite E in Hin; [exact Hin|].
      apply in_app_or in Hin as [Hin | [Hin | []]];
        [exact Hin | discriminate]. }
    destruct (qVersion_suffices p) eqn:Hv.
    + destruct (contains (effective_arguments p) "-t") eqn:Ht.
      * rewrite (main_quiet (calm p) _ _ Hv (calm_quiet p)
                   (dispatch_query (calm p) _ (calm_quiet p) Ht)) in Hc.
        cbn [fst] in Hc. apply in_app_or in Hc as [Hc | Hc].
        -- pose proof (startup_trace_calls (calm p)) as Hs.
           rewrite Forall_forall in Hs. specialize (Hs _ Hc). discriminate.
        -- destruct Hc as [Hc | [Hc | []]]; discriminate.
      * apply in_main_windows in Hc.
        destruct (normal_startup_quiet (calm p) Hv (calm_quiet p) Ht)
          as [E _].
        rewrite E in Hc. destruct Hc as [Hc | []]. now rewrite <- Hc.
    + unfold main in Hc.
      change (qVersion_suffices (calm p)) with (qVersion_suffices p) in Hc.
      rewrite Hv in Hc. destruct Hc as [Hc | [Hc | []]]; discriminate.
  - intros Hv Hq. split.
    + intros Hcase Ht.
      assert (E : effective_arguments p = arguments p).
      { unfold effective_arguments.
        destruct Hcase as [-> | [Hl | ->]]; [reflexivity | |].
        - destruct (Z.eqb_spec (Z.of_nat (length (arguments p))) 1) as [E|_];
            [lia | now rewrite andb_false_r].
        - cbn [String.eqb negb]. now rewrite andb_false_r. }
      rewrite <- E in Ht. rewrite <- E at 1.
      now apply normal_startup_quiet.
    + intros program Hmac Hargs Hf Ht.
      assert (E : effective_arguments p =
                  [program; absolute p (filter_initialFilePath p)]).
      { unfold effective_arguments. rewrite Hmac, Hargs. cbn [length andb].
        destruct (String.eqb_spec (filter_initialFilePath p) EmptyString);
          [contradiction | reflexivity]. }
      rewrite <- E in Ht.
      destruct (normal_startup_quiet p Hv Hq Ht) as [H1 H2].
      rewrite E in H1. now split.
Qed.

(** C7. In every run of [main], a main-window event (the window being
    constructed or shown) has a completed plugin scan before it. When
    the arguments do not hold [-t] and no call throws, the scan is
    completed, and after it the main window is constructed and shown
    and the event loop is run. *)
Theorem plugins_verified_before_main_window p :
  verified_first (fst (main_ p)) /\
  (qVersion_suffices p = true -> quiet p ->
   contains (effective_arguments p) "-t" = false ->
   exists before between,
     fst (main_ p) =
       before ++ load_plugins_from_disk :: between ++
       [MainWindow_new (initial_file_path p (effective_arguments p));
        MainWindow_show; app_exec] /\
     Forall no_main_window before /\ Forall no_main_window between).
Proof.
  split; [apply scan_precedes_verified, main_scan_first|].
  intros Hv Hq Ht.
  rewrite (main_quiet p _ _ Hv Hq (dispatch_normal p _ Hq Ht)). cbn [fst].
  exists (startup_trace p ++ fst (when (Q_OS_MAC (build p)) (mac_menubar p))
            ++ [PluginDB_instance]),
    (if Z.of_nat (length (effective_arguments p)) >? 1
     then [IsFileReadable (nth 1 (effective_arguments p) EmptyString)]
     else []).
  repeat split.
  - rewrite <- !app_assoc. reflexivity.
  - apply Forall_app; split.
    + eapply Forall_impl; [|apply startup_trace_calls].
      apply startup_call_no_main_window.
    + apply Forall_app; split; [apply mac_menubar_no_main_window|].
      now repeat constructor.
  - destruct (_ >? _); now repeat constructor.
Qed.

(** C5, as amended. An exception of [std::exception] or of a class
    derived from it that leaves a call inside the [try] block (library
    paths up to the event loop) is caught by the one handler of [main]:
    the calls made up to the throw are the first calls of a run in
    which nothing throws, none made twice; after the throw the error
    dialog is shown once, nothing else is called, and [main] returns 1.
    An exception of another type, and any exception thrown before the
    [try] block is entered (message handler, application data,
    application object, Python paths), leaves [main] uncaught with no
    dialog. *)
Theorem exceptions_at_the_boundary p :
  qVersion_suffices p = true ->
  (forall t what,
      snd (before_try p) = Normal tt ->
      try_block_ p = (t, Thrown (std_exception what)) ->
      main_ p =
        (fst (before_try p) ++ t ++
         [DisplayExceptionErrorDialog (QString_of_chars std_exception_what)],
         exit_status 1) /\
      dialogs (fst (main_ p)) = [QString_of_chars std_exception_what] /\
      exists rest, fst (main_ (calm p)) = fst (before_try p) ++ t ++ rest)
  /\
  (forall t,
      snd (before_try p) = Normal tt ->
      try_block_ p = (t, Thrown other_exception) ->
      main_ p = (fst (before_try p) ++ t, terminate) /\
      dialogs (fst (main_ p)) = [])
  /\
  (forall e,
      snd (before_try p) = Thrown e ->
      main_ p = (fst (before_try p), terminate) /\
      dialogs (fst (main_ p)) = []).
Proof.
  intros Hv.
  pose proof (before_try_no_dialog p) as D0.
  pose proof (try_block_no_dialog p) as D1.
  split; [|split].
  - intros t what H0 H1.
    assert (E : main_ p =
      (fst (before_try p) ++ t ++
       [DisplayExceptionErrorDialog (QString_of_chars std_exception_what)],
       exit_status 1)).
    { unfold main. rewrite Hv, H1.
      destruct (before_try p) as [t0 r]. cbn [fst snd] in *. now subst r. }
    rewrite E. cbn [fst]. rewrite H1 in D1. cbn [fst] in D1.
    split; [reflexivity|]. split.
    + now rewrite !dialogs_app, D0, D1.
    + destruct (before_try_cut_short p) as [u [Hu [E0 | [e [rest [He _]]]]]];
        [|congruence].
      destruct (try_block_cut_short p) as [a [Ha [E1 | [e [rest [_ Hrest]]]]]].
      { rewrite <- E1, H1 in Ha. discriminate. }
      rewrite H1 in Hrest. cbn [fst] in Hrest.
      exists rest. unfold main. calm_answers. rewrite Hv, <- E0.
      destruct (before_try p) as [t0 r]. cbn [fst snd] in *. subst r.
      destruct (try_block_ (calm p)) as [t' r']. cbn [fst snd] in *.
      subst r' t'. now rewrite app_assoc.
  - intros t H0 H1. unfold main. rewrite Hv, H1.
    rewrite H1 in D1. cbn [fst] in D1.
    destruct (before_try p) as [t0 r]. cbn [fst snd] in *. subst r.
    cbn [fst]. split; [reflexivity|]. now rewrite dialogs_app, D0, D1.
  - intros e H0. unfold main. rewrite Hv.
    destruct (before_try p) as [t0 r]. cbn [fst snd] in *. subst r.
    now split.
Qed.

End Startup.

(** * The properties on the sample runs *)

(** ** Messages *)

Lemma clipboard_retry_or_dialog_witness :
  (retries (fst (sample_handler windows_build (plain_desktop (Some code_view))
                   QtCriticalMsg WIN_CLIPBOARD_ERROR))
   = [(5, Some 1%nat, "copy()")] /\
   dialogs (fst (sample_handler windows_build (plain_desktop (Some code_view))
                   QtCriticalMsg WIN_CLIPBOARD_ERROR)) = [])
  /\
  (retries (fst (sample_handler windows_build (plain_desktop (Some search_box))
                   QtCriticalMsg WIN_CLIPBOARD_ERROR))
   = [(5, Some 3%nat, "copy()")] /\
   dialogs (fst (sample_handler windows_build (plain_desktop (Some search_box))
                   QtCriticalMsg WIN_CLIPBOARD_ERROR)) = [])
  /\
  (retries (fst (sample_handler windows_build (plain_desktop (Some tool_button))
                   QtCriticalMsg WIN_CLIPBOARD_ERROR)) = [] /\
   dialogs (fst (sample_handler windows_build (plain_desktop (Some tool_button))
                   QtCriticalMsg WIN_CLIPBOARD_ERROR))
   = ["Critical: QClipboard::setMimeData: Failed to set data on clipboard"]).
Proof.
  split; [|split].
  - apply (proj1 (clipboard_retry_or_dialog as_is as_is as_is windows_build
                    (plain_desktop (Some code_view)) WIN_CLIPBOARD_ERROR)
             code_view); [reflexivity | reflexivity | reflexivity |].
    left. reflexivity.
  - apply (proj1 (proj2 (clipboard_retry_or_dialog as_is as_is as_is
                           windows_build (plain_desktop (Some search_box))
                           WIN_CLIPBOARD_ERROR))
             search_box 3%nat); reflexivity.
  - apply (proj2 (proj2 (clipboard_retry_or_dialog as_is as_is as_is
                           windows_build (plain_desktop (Some tool_button))
                           WIN_CLIPBOARD_ERROR))).
    right. right. right. exists tool_button. split; reflexivity.
Defined.

(** The retry for a combo box is not scheduled on the box (address 2)
    but on its line edit (address 3). *)
Lemma retry_is_scheduled_on_line_edit_not_on_combo_box :
  focusWidget (plain_desktop (Some search_box)) = Some search_box /\
  retries (fst (sample_handler windows_build (plain_desktop (Some search_box))
                  QtCriticalMsg WIN_CLIPBOARD_ERROR))
  = [(5, Some 3%nat, "copy()")] /\
  retries (fst (sample_handler windows_build (plain_desktop (Some search_box))
                  QtCriticalMsg WIN_CLIPBOARD_ERROR))
  <> [(5, Some (address search_box), "copy()")].
Proof.
  repeat split. discriminate.
Qed.

Lemma combo_box_retry_goes_to_line_edit_witness :
  retries (fst (sample_handler windows_build (plain_desktop (Some style_box))
                  QtCriticalMsg WIN_CLIPBOARD_ERROR))
  = [(5, None, "copy()")] /\
  dialogs (fst (sample_handler windows_build (plain_desktop (Some style_box))
                  QtCriticalMsg WIN_CLIPBOARD_ERROR)) = [] /\
  deferred_invocations (fun _ => true)
    (fst (sample_handler windows_build (plain_desktop (Some style_box))
            QtCriticalMsg WIN_CLIPBOARD_ERROR)) = [].
Proof.
  apply (combo_box_retry_goes_to_line_edit as_is as_is as_is windows_build
           (plain_desktop (Some style_box)) WIN_CLIPBOARD_ERROR style_box None
           (fun _ => true)); reflexivity.
Defined.


Lemma debug_log_line_witness :
  log_lines (fst (sample_handler windows_build
                    (desktop None (logfile_set_to "/tmp/sigil.log") true)
                    QtDebugMsg "loading"))
  = [("/tmp/sigil.log", "Debug: loading" +++ LF)]
  /\
  log_lines (fst (sample_handler windows_build
                    (desktop None (logfile_set_to "/tmp/sigil.log") false)
                    QtDebugMsg "loading")) = []
  /\
  log_lines (fst (sample_handler windows_build (plain_desktop None)
                    QtDebugMsg "loading")) = [].
Proof.
  split; [|split].
  - apply (proj1 (debug_log_line as_is as_is as_is windows_build
                    (desktop None (logfile_set_to "/tmp/sigil.log") true)
                    QtDebugMsg "loading") "/tmp/sigil.log");
      [reflexivity | reflexivity | reflexivity | discriminate | reflexivity].
  - apply (proj1 (proj2 (debug_log_line as_is as_is as_is windows_build
                    (desktop None (logfile_set_to "/tmp/sigil.log") false)
                    QtDebugMsg "loading")) "/tmp/sigil.log"); reflexivity.
  - apply (proj1 (proj2 (proj2 (proj2
             (debug_log_line as_is as_is as_is windows_build
                (plain_desktop None) QtDebugMsg "loading"))))).
    left. reflexivity.
Defined.

(** C8. The code at the failing input: on a Windows build with the log
    variable set and the file opening for appending, a Warning event
    appends a line to the log file, an empty one, besides its line on
    standard error; the claim has no log-file write for an event of
    another severity than Debug. *)
Theorem warning_event_appends_empty_log_line :
  log_lines (fst (sample_handler windows_build
                    (desktop None (logfile_set_to "/tmp/sigil.log") true)
                    QtWarningMsg "slow disk"))
  = [("/tmp/sigil.log", LF)] /\
  sample_handler windows_build
    (desktop None (logfile_set_to "/tmp/sigil.log") true)
    QtWarningMsg "slow disk"
  = ([fprintf_stderr ("Warning: slow disk" +++ LF);
      QFile_open_append "/tmp/sigil.log";
      QTextStream_write "/tmp/sigil.log" LF],
     Returns).
Proof. split; reflexivity. Qed.

(** ** Translators *)

Lemma first_loadable_directory_wins_witness :
  snd (qtbase_loop normal_process "qtbase_fr"
         (PossibleTranslationPaths normal_process)) = Normal true /\
  probed (fst (qtbase_loop normal_process "qtbase_fr"
                 (PossibleTranslationPaths normal_process)))
  = ["/missing/translations"; "/usr/share/sigil/translations";
     "/opt/sigil/translations"] /\
  load_attempts (fst (qtbase_loop normal_process "qtbase_fr"
                        (PossibleTranslationPaths normal_process)))
  = [(qtbaseTranslator, "qtbase_fr", "/usr/share/sigil/translations");
     (qtbaseTranslator, "qtbase_fr", "/opt/sigil/translations")].
Proof.
  apply (proj1 (first_loadable_directory_wins normal_process "qtbase_fr"
                  (PossibleTranslationPaths normal_process)
                  (fun _ => eq_refl) (fun _ => eq_refl))
           2%nat "/opt/sigil/translations");
    [reflexivity | reflexivity | reflexivity |].
  intros j d Hj E.
  destruct j as [|[|j]]; [| | lia]; injection E as <-; reflexivity.
Defined.

Lemma one_resolver_for_both_translators_witness :
  resolution (qtbase_loop normal_process "sigil_fr"
                (PossibleTranslationPaths normal_process))
  = (["/usr/share/sigil/translations"; "/opt/sigil/translations"],
     Some "/opt/sigil/translations") /\
  resolution (sigil_loop normal_process "sigil_fr"
                (PossibleTranslationPaths normal_process))
  = (["/usr/share/sigil/translations"; "/opt/sigil/translations"],
     Some "/opt/sigil/translations").
Proof.
  destruct (one_resolver_for_both_translators normal_process "sigil_fr"
              (PossibleTranslationPaths normal_process)
              (fun _ => eq_refl) (fun _ => eq_refl) (fun _ => eq_refl))
    as [E1 [E2 _]].
  split; [rewrite E1 | rewrite E2]; reflexivity.
Defined.

(** ** Start-up *)

Lemma scratchpad_query_after_startup_witness :
  contains (arguments query_process) "-t" = true /\
  stdout_lines (fst (sample_main query_process)) = ["/tmp/Sigil-XXXXXX" +++ LF] /\
  snd (sample_main query_process) = exit_status 1 /\
  forallb (fun e => negb (plugin_scan e || window_event e || is_exec e))
    (fst (sample_main query_process)) = true /\
  dialogs (fst (sample_main query_process)) = [] /\
  In CheckForUpdate (startup_trace query_process) /\
  In (installTranslator sigilTranslator) (startup_trace query_process).
Proof.
  destruct (scratchpad_query_after_startup as_is as_is "std::exception"
              query_process eq_refl) as [[Hnone _] Hquiet].
  destruct (Hquiet eq_refl (fun _ => eq_refl)) as [E [Hmade [Hout Hd]]].
  split; [reflexivity|]. split; [exact Hout|].
  split; [unfold sample_main; rewrite E; reflexivity|].
  split; [exact Hnone|]. split; [exact Hd|].
  split; apply Hmade; vm_compute; tauto.
Defined.

(** The [-t] query comes after the start-up calls: the update check has
    been started, the translators and the event filter installed, the
    Python path extended. *)
Lemma scratchpad_query_follows_other_startup_calls :
  contains (arguments query_process) "-t" = true /\
  In CheckForUpdate (fst (sample_main query_process)) /\
  In (installTranslator sigilTranslator) (fst (sample_main query_process)) /\
  In installEventFilter (fst (sample_main query_process)) /\
  In (addToPythonSysPath "/usr/share/sigil/python3lib")
    (fst (sample_main query_process)) /\
  fst (sample_main query_process)
  <> [GetPathToSigilScratchpad; std_cout ("/tmp/Sigil-XXXXXX" +++ LF)].
Proof.
  split; [reflexivity|]. vm_compute.
  repeat split; try discriminate; repeat (try (left; reflexivity); right).
Qed.

Lemma exceptions_at_the_boundary_witness :
  (snd (sample_main plugin_failure_process) = exit_status 1 /\
   dialogs (fst (sample_main plugin_failure_process)) = ["std::exception"] /\
   exists rest,
     fst (sample_main (calm plugin_failure_process)) =
     fst (before_try plugin_failure_process) ++
     fst (try_block as_is plugin_failure_process) ++ rest)
  /\
  sample_main foreign_failure_process =
    (fst (before_try foreign_failure_process) ++
     fst (try_block as_is foreign_failure_process), terminate)
  /\
  sample_main python_failure_process =
    (fst (before_try python_failure_process), terminate).
Proof.
  pose proof (exceptions_at_the_boundary as_is as_is "std::exception") as H.
  split; [|split].
  - destruct (proj1 (H plugin_failure_process eq_refl)
                (fst (try_block as_is plugin_failure_process))
                "cannot read plugin folder" eq_refl eq_refl)
      as [E [Hd Hrest]].
    split; [|split; [exact Hd | exact Hrest]].
    unfold sample_main. rewrite E. reflexivity.
  - apply (proj1 (proj2 (H foreign_failure_process eq_refl))
             (fst (try_block as_is foreign_failure_process))
             eq_refl eq_refl).
  - apply (proj2 (proj2 (H python_failure_process eq_refl))
             (std_exception "bad_alloc") eq_refl).
Defined.

(** An exception thrown while the Python path is set up, before the
    [try] block, and an exception of another type than
    [std::exception] thrown inside the block both leave [main]
    uncaught: no dialog, no exit status. *)
Lemma exceptions_that_escape_main :
  (snd (sample_main python_failure_process) = terminate /\
   dialogs (fst (sample_main python_failure_process)) = [])
  /\
  (snd (sample_main foreign_failure_process) = terminate /\
   dialogs (fst (sample_main foreign_failure_process)) = []).
Proof. repeat split. Qed.

Lemma main_window_initial_file_path_witness :
  (contains (arguments normal_process) "-t" = false /\
   main_windows (fst (sample_main normal_process)) = ["/home/user/book.epub"] /\
   dialogs (fst (sample_main normal_process)) = [] /\
   snd (sample_main normal_process) = exit_status 0)
  /\
  (main_windows (fst (sample_main mac_open_process)) = ["/home/user/book.epub"] /\
   dialogs (fst (sample_main mac_open_process)) = [] /\
   snd (sample_main mac_open_process) = exit_status 0)
  /\
  (In (MainWindow_new "/home/user/book.epub") (fst (sample_main normal_process))
   -> "/home/user/book.epub" =
      initial_file_path normal_process (effective_arguments normal_process)).
Proof.
  pose proof (main_window_initial_file_path as_is as_is "std::exception") as H.
  split; [|split].
  - split; [reflexivity|].
    apply (proj1 (proj2 (H normal_process) eq_refl (fun _ => eq_refl)));
      [left; reflexivity | reflexivity].
  - apply (proj2 (proj2 (H mac_open_process) eq_refl (fun _ => eq_refl))
             "sigil");
      [reflexivity | reflexivity | discriminate | reflexivity].
  - apply (proj1 (H normal_process)).
Defined.

(** On macOS, with no argument on the command line, the main window is
    constructed with the path of the FileOpen event and not with the
    empty path. *)
Lemma mac_file_open_event_sets_initial_path :
  arguments mac_open_process = ["sigil"] /\
  contains (arguments mac_open_process) "-t" = false /\
  main_windows (fst (sample_main mac_open_process)) = ["/home/user/book.epub"] /\
  main_windows (fst (sample_main mac_open_process)) <> [EmptyString].
Proof. repeat split. discriminate. Qed.

Lemma plugins_verified_before_main_window_witness :
  verified_first (fst (sample_main normal_process)) /\
  verified_first (fst (sample_main plugin_failure_process)) /\
  exists before between,
    fst (sample_main normal_process) =
      before ++ load_plugins_from_disk :: between ++
      [MainWindow_new "/home/user/book.epub"; MainWindow_show; app_exec].
Proof.
  split; [|split].
  - apply (proj1 (plugins_verified_before_main_window as_is as_is
                    "std::exception" normal_process)).
  - apply (proj1 (plugins_verified_before_main_window as_is as_is
                    "std::exception" plugin_failure_process)).
  - destruct (proj2 (plugins_verified_before_main_window as_is as_is
                       "std::exception" normal_process)
                eq_refl (fun _ => eq_refl) eq_refl)
      as [before [between [E _]]].
    exists before, between. exact E.
Defined.

(** * Further properties *)

(** ** Messages *)

Section HandlerEffects.

Variable toLatin1_constData : QString -> CString.
Variable QString_of_chars : CString -> QString.
Variable trimmed : QString -> QString.

Local Abbreviation handler :=
  (MessageHandler toLatin1_constData QString_of_chars trimmed).
Local Abbreviation switch :=
  (handler_switch toLatin1_constData QString_of_chars).
Local Abbreviation text_of :=
  (error_message_of toLatin1_constData QString_of_chars).

(** X1. A Critical event is never dropped and never answered twice:
    the handler makes exactly one retry call and shows no dialog, or
    shows exactly one dialog and makes no retry call, and it returns. *)
Theorem critical_gets_one_retry_or_one_dialog b d message :
  let t := fst (handler b d QtCriticalMsg message) in
  snd (handler b d QtCriticalMsg message) = Returns /\
  ((exists target,
       retries t = [(RETRY_DELAY_MS, target, SLOT_copy)] /\ dialogs t = []) \/
   (retries t = [] /\ dialogs t = ["Critical: " +++ text_of message])).
Proof.
  cbv zeta. split.
  - unfold MessageHandler, handler_switch.
    now destruct (clipboard_recovery b d _).
  - rewrite critical_trace.
    unfold retries, dialogs. rewrite !flat_map_app.
    fold (retries (handler_logfile trimmed b d EmptyString)).
    fold (dialogs (handler_logfile trimmed b d EmptyString)).
    rewrite logfile_retries, logfile_dialogs, !app_nil_r.
    destruct (clipboard_recovery b d _) as [t|] eqn:E.
    + apply recovery_shape in E as [target ->]. left. exists target.
      now split.
    + right. now split.
Qed.

Lemma switch_completion b d type message :
  snd (switch b d type message) =
  match type with QtFatalMsg => Aborts | _ => Returns end.
Proof.
  destruct type; simpl; try reflexivity.
  - now destruct (_ <=? _).
  - now destruct (clipboard_recovery b d _).
Qed.

Lemma handler_completion b d type message :
  snd (handler b d type message) =
  match type with QtFatalMsg => Aborts | _ => Returns end.
Proof.
  pose proof (switch_completion b d type message) as H.
  unfold MessageHandler.
  destruct (switch b d type message) as [[t m] c]. cbn [snd] in H. subst c.
  now destruct type.
Qed.

Lemma logfile_no_abort b d m : ~ In abort (handler_logfile trimmed b d m).
Proof.
  unfold handler_logfile.
  destruct (Q_OS_WIN32 b); [|now intros []].
  destruct (_ && _)%bool; [|now intros []].
  destruct (opens_for_append d _); simpl; intuition discriminate.
Qed.

(** X2. Only a Fatal event ends the process: the handler calls
    [abort()] for a Fatal event and for no other. For a Fatal event it
    shows the message as it was given, not its Latin-1 text, and does
    nothing else: it prints nothing and leaves the log file alone. An
    event that is not Critical never gets a retry, and a Debug, Info
    or Warning event never gets a dialog. *)
Theorem only_fatal_aborts b d type message :
  let t := fst (handler b d type message) in
  (snd (handler b d type message) = Aborts <-> type = QtFatalMsg) /\
  (In abort t <-> type = QtFatalMsg) /\
  (type = QtFatalMsg ->
   t = [DisplayExceptionErrorDialog ("Fatal: " +++ message); abort]) /\
  (type <> QtCriticalMsg -> retries t = []) /\
  (type = QtDebugMsg \/ type = QtInfoMsg \/ type = QtWarningMsg ->
   dialogs t = []).
Proof.
  cbv zeta. split; [|split; [|split; [|split]]].
  - rewrite handler_completion. destruct type; split; congruence.
  - rewrite handler_trace, switch_completion. split.
    + intros H. apply in_app_or in H as [H | H].
      * destruct type; cbn [handler_switch fst] in H; try reflexivity.
        -- destruct H as [H | []]. discriminate.
        -- destruct (_ <=? _); cbn in H; intuition discriminate.
        -- destruct H as [H | []]. discriminate.
        -- destruct (clipboard_recovery b d _) as [t|] eqn:E.
           ++ apply recovery_shape in E as [target ->].
              destruct H as [H | []]. discriminate.
           ++ destruct H as [H | []]. discriminate.
      * destruct type; try reflexivity; now apply logfile_no_abort in H.
    + intros ->. cbn. now right; left.
  - intros ->. cbn [MessageHandler handler_switch fst].
    now rewrite arg_Fatal.
  - intros Hc. rewrite handler_trace. unfold retries. rewrite flat_map_app.
    replace (flat_map _ (match snd (switch b d type message) with
                         | Returns => _ | Aborts => _ end))
      with (@nil (Z * option QObject * string)).
    2:{ destruct (snd (switch b d type message)); [|reflexivity].
        symmetry. apply logfile_retries. }
    destruct type; cbn [handler_switch fst]; try reflexivity.
    + now destruct (_ <=? _).
    + now elim Hc.
  - intros Hlow. rewrite handler_trace, dialogs_app.
    replace (dialogs (match snd (switch b d type message) with
                      | Returns => _ | Aborts => _ end))
      with (@nil QString).
    2:{ destruct (snd (switch b d type message)); [|reflexivity].
        symmetry. apply logfile_dialogs. }
    destruct Hlow as [-> | [-> | ->]]; cbn [handler_switch fst];
      try reflexivity.
    now destruct (_ <=? _).
Qed.

Lemma log_opens_app t t' : log_opens (t ++ t') = log_opens t ++ log_opens t'.
Proof. apply flat_map_app. Qed.

Lemma switch_log_opens b d type message :
  log_opens (fst (fst (switch b d type message))) = [].
Proof.
  destruct type; simpl; try reflexivity.
  - now destruct (_ <=? _).
  - destruct (clipboard_recovery b d _) as [t|] eqn:E; [|reflexivity].
    apply recovery_shape in E as [target ->]. reflexivity.
Qed.

(** X3. On a Windows build with the log variable set and not empty,
    every event the handler returns from opens the log file once, under
    the trimmed value of the variable, and when it opens appends one
    line to it: [Debug: ] and the message for a Debug event, an empty
    line for an Info, Warning or Critical event. *)
Theorem windows_log_one_line_per_event b d type message v :
  Q_OS_WIN32 b = true ->
  getenv d LOGFILE_VARIABLE = Some v -> v <> EmptyString ->
  type <> QtFatalMsg ->
  let t := fst (handler b d type message) in
  log_opens t = [trimmed v] /\
  log_lines t =
    if opens_for_append d (trimmed v) then
      [(trimmed v,
        match type with
        | QtDebugMsg => "Debug: " +++ text_of message
        | _ => EmptyString
        end +++ LF)]
    else [].
Proof.
  intros Hb Hv Hne Ht. cbv zeta.
  rewrite handler_log_lines, handler_trace, switch_completion, log_opens_app.
  rewrite switch_log_opens.
  assert (Hm : snd (fst (switch b d type message)) =
               match type with
               | QtDebugMsg => "Debug: " +++ text_of message
               | _ => EmptyString
               end).
  { destruct type; cbn [handler_switch fst snd]; try reflexivity.
    - apply arg_Debug.
    - now destruct (_ <=? _).
    - now destruct (clipboard_recovery b d _). }
  rewrite Hm, (logfile_set trimmed b d _ v Hb Hv Hne).
  destruct type; try (now elim Ht);
    destruct (opens_for_append d (trimmed v)); split; reflexivity.
Qed.

(** X4. The focused widget matters for a Critical event on a Windows
    build and for nothing else: two desktops with the same environment
    and the same files give the same calls and the same ending for
    every other event and on every other build. *)
Theorem focus_only_matters_for_windows_critical b d d' type message :
  (forall v, getenv d' v = getenv d v) ->
  (forall f, opens_for_append d' f = opens_for_append d f) ->
  type <> QtCriticalMsg \/ Q_OS_WIN32 b = false ->
  handler b d' type message = handler b d type message.
Proof.
  intros He Ho Hcase.
  assert (Hl : forall m, handler_logfile trimmed b d' m =
                         handler_logfile trimmed b d m).
  { intros m. unfold handler_logfile, qEnvironmentVariableIsSet,
      qEnvironmentVariableIsEmpty, systemEnvironment_value.
    now rewrite He, Ho. }
  assert (Hs : switch b d' type message = switch b d type message).
  { destruct type; try reflexivity. destruct Hcase as [H | H]; [now elim H|].
    cbn [handler_switch]. unfold clipboard_recovery. now rewrite H. }
  unfold MessageHandler. rewrite Hs.
  destruct (switch b d type message) as [[t m] c].
  destruct c; [now rewrite Hl | reflexivity].
Qed.

End HandlerEffects.

(** ** The slots of the macOS menu *)

Lemma existsb_eqb_In (x : QString) (l : list QString) :
  existsb (String.eqb x) l = true <-> In x l.
Proof.
  rewrite existsb_exists. split.
  - intros [y [Hy E]]. apply String.eqb_eq in E. now subst.
  - intros H. exists x. split; [exact H | apply String.eqb_refl].
Qed.

Lemma removeDuplicates_seen_In seen l f :
  In f (removeDuplicates_seen seen l) <-> In f l /\ ~ In f seen.
Proof.
  revert seen. induction l as [|x rest IH]; intros seen; cbn [removeDuplicates_seen].
  - split; [intros [] | intros [[] _]].
  - destruct (existsb (String.eqb x) seen) eqn:E.
    + apply existsb_eqb_In in E. rewrite IH. cbn [In]. split.
      * intros [H1 H2]. split; [now right | exact H2].
      * intros [[-> | H1] H2]; [contradiction | now split].
    + assert (Hx : ~ In x seen).
      { intros H. apply existsb_eqb_In in H. congruence. }
      cbn [In]. rewrite IH. cbn [In]. split.
      * intros [<- | [H1 H2]]; [split; [now left | exact Hx]|].
        split; [now right | tauto].
      * intros [[<- | H1] H2]; [now left|].
        destruct (String.eqb_spec x f) as [->|Hne]; [now left | right].
        split; [exact H1 | intros [E' | H3]; contradiction].
Qed.

Lemma removeDuplicates_seen_NoDup seen l :
  NoDup (removeDuplicates_seen seen l).
Proof.
  revert seen. induction l as [|x rest IH]; intros seen; cbn [removeDuplicates_seen].
  - constructor.
  - destruct (existsb (String.eqb x) seen); [apply IH|].
    constructor; [|apply IH].
    rewrite removeDuplicates_seen_In. cbn [In]. tauto.
Qed.

Lemma cat_assoc (a b c : string) : (a +++ b) +++ c = a +++ (b +++ c).
Proof.
  unfold cat. induction a as [|x a IH]; simpl; [reflexivity | now rewrite IH].
Qed.

Lemma join_filters_from (start : QString) (filters : list QString) :
  fold_left (fun filter_string filter => filter_string +++ (filter +++ ";;"))
    filters start =
  start +++ fold_right (fun filter rest => filter +++ (";;" +++ rest))
              EmptyString filters.
Proof.
  revert start. induction filters as [|f rest IH]; intros start; cbn.
  - now rewrite cat_empty_r.
  - now rewrite IH, !cat_assoc.
Qed.

Lemma value_found (m : QMap) (key : QString) :
  (exists v, In (key, v) m) -> In (value m key) (values m).
Proof.
  intros [v Hv]. unfold value, values.
  destruct (find (fun kv => String.eqb (fst kv) key) m) as [kv|] eqn:E.
  - apply find_some in E as [Hin _]. now apply in_map.
  - eapply find_none in E; [|exact Hv]. cbn in E.
    now rewrite String.eqb_refl in E.
Qed.

Lemma value_missing (m : QMap) (key : QString) :
  (forall v, ~ In (key, v) m) -> value m key = EmptyString.
Proof.
  intros H. unfold value.
  destruct (find (fun kv => String.eqb (fst kv) key) m) as [[k v]|] eqn:E;
    [|reflexivity].
  apply find_some in E as [Hin Hk]. cbn in Hk. apply String.eqb_eq in Hk.
  subst k. now elim (H v).
Qed.

(** X5. [file_new] opens an empty window: whatever throws, a main
    window it constructs has the empty path and no file is probed; when
    nothing throws it constructs one main window and shows it. *)
Theorem file_new_opens_an_empty_window p :
  (forall path,
      In (MainWindow_new path) (fst (Slots.file_new p)) ->
      path = EmptyString) /\
  (forall f, ~ In (IsFileReadable f) (fst (Slots.file_new p))) /\
  (quiet p ->
   Slots.file_new p = ([MainWindow_new EmptyString; MainWindow_show], Normal tt)).
Proof.
  unfold Slots.file_new, GetMainWindow, call_, call. cbn [length Z.of_nat Z.gtb Z.compare ret bind].
  destruct (throws p (MainWindow_new EmptyString)) eqn:E1; cbn [bind app fst].
  - repeat split; try (now intros ? []); try (now intros []).
    intros Hq. now rewrite Hq in E1.
  - destruct (throws p MainWindow_show) eqn:E2; cbn [fst app].
    + repeat split.
      * intros path [H | []]. now injection H as <-.
      * intros f [H | []]. discriminate.
      * intros Hq. now rewrite Hq in E2.
    + repeat split.
      * intros path [H | [H | []]]; [now injection H as <- | discriminate].
      * intros f [H | [H | []]]; discriminate.
Qed.

(** *** Runs, call by call *)

Lemma traced_bind_call P {A B} p e (v : A) (f : A -> Run B) :
  P e -> traced P (f v) -> traced P (bind (call p e v) f).
Proof.
  intros He Hf. unfold call. destruct (throws p e); [constructor|].
  rewrite bind_normal. unfold traced in *. cbn [fst app]. now constructor.
Qed.

Lemma traced_bind_call_ P {B} p e (f : unit -> Run B) :
  P e -> traced P (f tt) -> traced P (bind (call_ p e) f).
Proof. apply traced_bind_call. Qed.

Lemma traced_call_ P p e : P e -> traced P (call_ p e).
Proof. apply traced_call. Qed.

Lemma traced_bind_value P {A B} (m : Run A) (f : A -> Run B) :
  traced P m -> (forall a, snd m = Normal a -> traced P (f a)) ->
  traced P (bind m f).
Proof.
  unfold traced. destruct m as [t [a|e]]; cbn [bind fst snd]; intros Hm Hf;
    [|exact Hm].
  specialize (Hf a eq_refl). destruct (f a). cbn [fst] in *.
  apply Forall_app. now split.
Qed.

(** One step through a block; [tac] proves the property of a call and
    may use the tests passed on the way, kept as equations. *)
Ltac traced_calls tac :=
  repeat first
    [ rewrite bind_assoc
    | rewrite bind_ret_l; cbv beta
    | apply traced_bind_call; [solve [tac] | cbv beta]
    | apply traced_bind_call_; [solve [tac] | cbv beta]
    | apply traced_call; solve [tac]
    | apply traced_call_; solve [tac]
    | apply traced_ret
    | lazymatch goal with
      | |- traced _ (bind (when _ _) _) => apply traced_bind; [| intros _]
      | |- traced _ (when ?c _) =>
          let E := fresh "E" in
          unfold when; destruct c eqn:E; try discriminate E
      | |- traced _ (bind (if ?c then _ else _) _) =>
          let E := fresh "E" in destruct c eqn:E; try discriminate E
      | |- traced _ (if ?c then _ else _) =>
          let E := fresh "E" in destruct c eqn:E; try discriminate E
      end ].

Lemma qtbase_loop_traced (P : Event -> Prop) p name paths :
  (forall d, In d paths -> P (QDir_exists d)) ->
  (forall d, In d paths -> dir_exists p d = true ->
             P (QTranslator_load qtbaseTranslator name d)) ->
  traced P (qtbase_loop p name paths).
Proof.
  induction paths as [|path rest IH]; intros Hd Hl; cbn [qtbase_loop].
  - apply traced_ret.
  - assert (Hrest : traced P (qtbase_loop p name rest)).
    { apply IH; intros d Hin; [apply Hd | apply Hl]; now right. }
    apply traced_bind_call; [apply Hd; now left|]. cbv beta.
    destruct (dir_exists p path) eqn:E; [|exact Hrest].
    apply traced_bind_call; [apply Hl; [now left | exact E]|]. cbv beta.
    destruct (translation_loads p name path); [apply traced_ret | exact Hrest].
Qed.

Lemma sigil_loop_traced (P : Event -> Prop) p name paths :
  (forall d, In d paths -> P (QDir_exists d)) ->
  (forall d, In d paths -> dir_exists p d = true ->
             P (QTranslator_load sigilTranslator name d)) ->
  traced P (sigil_loop p name paths).
Proof.
  induction paths as [|path rest IH]; intros Hd Hl; cbn [sigil_loop].
  - apply traced_ret.
  - assert (Hrest : traced P (sigil_loop p name rest)).
    { apply IH; intros d Hin; [apply Hd | apply Hl]; now right. }
    apply traced_bind_call; [apply Hd; now left|]. cbv beta.
    destruct (dir_exists p path) eqn:E; [|exact Hrest].
    apply traced_bind_call; [apply Hl; [now left | exact E]|]. cbv beta.
    destruct (translation_loads p name path); [apply traced_ret | exact Hrest].
Qed.

(** What [GetMainWindow] probes and constructs, whatever throws. *)
Lemma GetMainWindow_from_arguments p args :
  traced (from_arguments p args) (GetMainWindow p args).
Proof.
  unfold GetMainWindow.
  destruct (Z.of_nat (length args) >? 1) eqn:E.
  - destruct args as [|a0 [|a1 rest]]; try discriminate.
    cbn [nth initial_file_path].
    traced_calls ltac:(first [exact I | reflexivity | cbn; congruence]).
  - assert (initial_file_path p args = EmptyString) as H.
    { destruct args as [|a0 [|a1 rest]]; try reflexivity.
      cbn [length] in E. rewrite Z.gtb_ltb in E. apply Z.ltb_ge in E. lia. }
    traced_calls ltac:(first [exact I | cbn; congruence]).
Qed.

Lemma in_map_shared e t : In (shared e) (map shared t) -> In e t.
Proof.
  intros H. apply in_map_iff in H as [x [Hx Hin]]. now injection Hx as ->.
Qed.

(** X6. [file_open] opens a window only for a file that was picked:
    when the dialog is dismissed it makes no call after the dialog.
    When a file is picked, that file is the only one probed, and a main
    window that is constructed gets the picked file if it is readable
    and the empty path if it is not. When nothing throws, the window is
    constructed and shown. *)
Theorem file_open_window_follows_the_dialog p dlg :
  let t := fst (Slots.file_open p dlg) in
  let f := picked_file dlg in
  (f = EmptyString ->
   length t = 2%nat /\ snd (Slots.file_open p dlg) = Normal tt)
  /\
  (forall path,
      In (shared (MainWindow_new path)) t ->
      f <> EmptyString /\
      path = (if file_readable p f then f else EmptyString))
  /\
  (forall g, In (shared (IsFileReadable g)) t -> g = f)
  /\
  (f <> EmptyString -> quiet p ->
   skipn 2 t =
     [shared (IsFileReadable f);
      shared (MainWindow_new (if file_readable p f then f else EmptyString));
      shared MainWindow_show] /\
   snd (Slots.file_open p dlg) = Normal tt).
Proof.
  cbv zeta. unfold Slots.file_open. cbv zeta. cbn [fst snd].
  destruct (String.eqb_spec (picked_file dlg) EmptyString) as [E|E];
    cbn [negb].
  - split; [intros _; now split|]. split; [|split].
    + intros path [H | [H | []]]; discriminate.
    + intros g [H | [H | []]]; discriminate.
    + intros H. now elim H.
  - split; [intros H; now elim E|].
    pose proof (GetMainWindow_from_arguments p
                  [EmptyString; picked_file dlg]) as Hg.
    assert (Ht : traced (from_arguments p [EmptyString; picked_file dlg])
                   (GetMainWindow p [EmptyString; picked_file dlg] ;;
                    call_ p MainWindow_show)).
    { apply traced_bind; [exact Hg | intros _].
      apply traced_call_. exact I. }
    unfold traced in Ht. rewrite Forall_forall in Ht.
    split; [|split].
    + intros path [H | [H | H]]; try discriminate.
      apply in_map_shared, Ht in H. split; [exact E | exact H].
    + intros g [H | [H | H]]; try discriminate.
      apply in_map_shared, Ht in H. cbn in H. now injection H as ->.
    + intros _ Hq.
      rewrite (GetMainWindow_quiet p _ Hq), bind_normal.
      unfold call_. rewrite (call_returns p _ _ (Hq _)).
      cbn. now split.
Qed.

Lemma removeDuplicates_seen_ext seen seen' l :
  (forall x, In x seen <-> In x seen') ->
  removeDuplicates_seen seen l = removeDuplicates_seen seen' l.
Proof.
  revert seen seen'. induction l as [|x rest IH]; intros seen seen' H;
    cbn [removeDuplicates_seen]; [reflexivity|].
  assert (E : existsb (String.eqb x) seen = existsb (String.eqb x) seen').
  { destruct (existsb (String.eqb x) seen) eqn:E1;
      destruct (existsb (String.eqb x) seen') eqn:E2; try reflexivity.
    - apply existsb_eqb_In, H, existsb_eqb_In in E1. congruence.
    - apply existsb_eqb_In, H, existsb_eqb_In in E2. congruence. }
  rewrite <- E. destruct (existsb (String.eqb x) seen).
  - now apply IH.
  - f_equal. apply IH. intros y. cbn [In]. now rewrite H.
Qed.

Lemma removeDuplicates_seen_app seen l1 l2 :
  removeDuplicates_seen seen (l1 ++ l2) =
  removeDuplicates_seen seen l1 ++ removeDuplicates_seen (l1 ++ seen) l2.
Proof.
  revert seen. induction l1 as [|x l1 IH]; intros seen;
    cbn [app removeDuplicates_seen]; [reflexivity|].
  destruct (existsb (String.eqb x) seen) eqn:E.
  - rewrite IH. f_equal. apply removeDuplicates_seen_ext.
    intros y. apply existsb_eqb_In in E.
    cbn [In]. rewrite ?in_app_iff. cbn [In]. intuition (subst; auto).
  - cbn [app]. rewrite IH. f_equal. f_equal.
    apply removeDuplicates_seen_ext.
    intros y. cbn [In]. rewrite ?in_app_iff. cbn [In]. tauto.
Qed.

(** X7. The filter string [file_open] hands to the dialog lists every
    filter of the map once: the filters offered are those of the map,
    without repetition, each followed by two semicolons, in the order
    of their first occurrence (a filter stands where it first occurs
    among the values of the map: before it come the filters that occur
    before that place, and no other). The filter it preselects is the
    one of the key [epub], which is among those offered; it is empty
    when the map has no such key. *)
Theorem file_open_offers_every_filter_once p dlg :
  let m := LoadFiltersMap dlg in
  let offered := removeDuplicates (values m) in
  NoDup offered /\
  (forall f, In f offered <-> In f (values m)) /\
  (forall before f after,
      values m = before ++ f :: after -> ~ In f before ->
      exists offered_before offered_after,
        offered = offered_before ++ f :: offered_after /\
        (forall g, In g offered_before <-> In g before)) /\
  firstn 2 (fst (Slots.file_open p dlg)) =
    [GetLoadFiltersMap;
     getOpenFileName "Open File" "~"
       (fold_right (fun filter rest => filter +++ (";;" +++ rest))
          EmptyString offered)
       (value m "epub")] /\
  ((exists v, In ("epub", v) m) -> In (value m "epub") offered) /\
  ((forall v, ~ In ("epub", v) m) -> value m "epub" = EmptyString).
Proof.
  cbv zeta. unfold removeDuplicates.
  split; [|split; [|split; [|split; [|split]]]].
  - apply removeDuplicates_seen_NoDup.
  - intros f. rewrite removeDuplicates_seen_In. cbn [In]. tauto.
  - intros before f after E Hf. rewrite E, removeDuplicates_seen_app.
    cbn [removeDuplicates_seen].
    assert (Hs : existsb (String.eqb f) (before ++ []) = false).
    { destruct (existsb (String.eqb f) (before ++ [])) eqn:E1; [|reflexivity].
      apply existsb_eqb_In in E1. rewrite app_nil_r in E1. contradiction. }
    rewrite Hs. eexists _, _. split; [reflexivity|].
    intros g. rewrite removeDuplicates_seen_In. cbn [In]. tauto.
  - unfold Slots.file_open, join_filters, removeDuplicates. cbv zeta.
    cbn [fst app firstn]. rewrite join_filters_from. reflexivity.
  - intros H. apply removeDuplicates_seen_In. split; [|now intros []].
    now apply value_found.
  - apply value_missing.
Qed.

(** ** Start-up, call by call *)

Lemma arg_qtbase (a : QString) : arg "qtbase_%1" a = "qtbase_" +++ a.
Proof. unfold cat. simpl. now rewrite (cat_empty_r a). Qed.

Lemma arg_sigil (a : QString) : arg "sigil_%1" a = "sigil_" +++ a.
Proof. unfold cat. simpl. now rewrite (cat_empty_r a). Qed.

(** The list [read_arguments] gives, whenever it gives one. *)
Lemma read_arguments_value p a :
  snd (read_arguments p) = Normal a -> a = effective_arguments p.
Proof.
  unfold read_arguments, effective_arguments, call_, call.
  destruct (throws p QCoreApplication_arguments); [discriminate|].
  rewrite bind_normal. cbn [snd].
  destruct (Q_OS_MAC (build p)); cbn [andb]; [|now intros [= <-]].
  destruct (throws p processEvents); [discriminate|].
  rewrite bind_normal. cbn [snd].
  destruct (throws p getInitialFilePath); [discriminate|].
  rewrite bind_normal. cbn [snd].
  destruct (_ && _)%bool; [|now intros [= <-]].
  destruct (throws p (absoluteFilePath _)); [discriminate|].
  rewrite bind_normal. cbn [snd ret]. now intros [= <-].
Qed.

Section StartupCalls.

Variable QString_of_chars : CString -> QString.
Variable toStdString : QString -> string.
Variable std_exception_what : CString.

Local Abbreviation dispatch_ := (dispatch toStdString).
Local Abbreviation try_block_ := (try_block toStdString).
Local Abbreviation main_ :=
  (main QString_of_chars toStdString std_exception_what).

(** A property of every call of [main], from the same property of its
    blocks. *)
Lemma main_traced (P : Event -> Prop) p :
  P (DisplayExceptionErrorDialog (QString_of_chars std_exception_what)) ->
  P QMessageBox_critical_incompatible_Qt -> P qFatal ->
  traced P (before_try p) ->
  traced P (install_translations p) ->
  traced P (apply_stylesheet p) ->
  traced P (finish_setup p) ->
  traced P (read_arguments p) ->
  traced P (dispatch_ p (effective_arguments p)) ->
  Forall P (fst (main_ p)).
Proof.
  intros Hd Hm Hf H0 H1 H2 H3 H4 H5.
  assert (Ht : traced P (try_block_ p)).
  { unfold try_block.
    apply traced_bind; [exact H1 | intros _].
    apply traced_bind; [exact H2 | intros _].
    apply traced_bind; [exact H3 | intros _].
    apply traced_bind_value; [exact H4 | intros a Ha].
    now rewrite (read_arguments_value p a Ha). }
  unfold main. destruct (qVersion_suffices p); [|now repeat constructor].
  unfold traced in *.
  destruct (before_try p) as [t0 [u|e]]; cbn [fst] in *; [|exact H0].
  destruct (try_block_ p) as [t [status|[what|]]]; cbn [fst] in *.
  - apply Forall_app. now split.
  - apply Forall_app. split; [exact H0|]. apply Forall_app. split; [exact Ht|].
    now repeat constructor.
  - apply Forall_app. now split.
Qed.

(** The blocks, opened up for [traced_calls]. *)
Ltac open_blocks :=
  unfold before_try, install_translations, apply_stylesheet, finish_setup,
    read_arguments, dispatch, mac_menubar, VerifyPlugins, GetApplicationIcon;
  cbv zeta.

(** When no call throws, [main] makes the start-up calls and goes on. *)
Lemma main_quiet_startup p :
  qVersion_suffices p = true -> quiet p ->
  exists t, fst (main_ p) = startup_trace p ++ t.
Proof.
  intros Hv Hq. destruct (contains (effective_arguments p) "-t") eqn:Ht.
  - eexists.
    now rewrite (main_quiet QString_of_chars toStdString std_exception_what
                   p _ _ Hv Hq (dispatch_query toStdString p _ Hq Ht)).
  - eexists.
    now rewrite (main_quiet QString_of_chars toStdString std_exception_what
                   p _ _ Hv Hq (dispatch_normal toStdString p _ Hq Ht)).
Qed.

(** X8. Every translation [main] asks for is asked under the name of
    its translator and the language of the settings, [qtbase_] and the
    language for the Qt translator and [sigil_] and the language for
    Sigil's, and from a directory of the candidate list that exists;
    this holds whatever throws. *)
Theorem translations_requested_by_name p tr n d :
  In (QTranslator_load tr n d) (fst (main_ p)) ->
  n = qm_name_of tr (settings_uiLanguage p) /\
  In d (PossibleTranslationPaths p) /\ dir_exists p d = true.
Proof.
  intros Hin.
  assert (H : Forall (translation_request p) (fst (main_ p))).
  { apply main_traced; try exact I.
    - open_blocks. traced_calls ltac:(exact I).
    - unfold install_translations.
      do 8 (apply traced_bind_call_ || apply traced_bind_call;
            [exact I | cbv beta]).
      apply traced_bind.
      { apply qtbase_loop_traced; [intros; exact I|].
        intros x Hx Ex. unfold translation_request.
        rewrite arg_qtbase. now repeat split. }
      intros _.
      do 3 (apply traced_bind_call_ || apply traced_bind_call;
            [exact I | cbv beta]).
      apply traced_bind.
      { apply sigil_loop_traced; [intros; exact I|].
        intros x Hx Ex. unfold translation_request.
        rewrite arg_sigil. now repeat split. }
      intros _. apply traced_call_. exact I.
    - open_blocks. traced_calls ltac:(exact I).
    - open_blocks. traced_calls ltac:(exact I).
    - open_blocks. traced_calls ltac:(exact I).
    - open_blocks. unfold GetMainWindow. traced_calls ltac:(exact I). }
  rewrite Forall_forall in H. exact (H _ Hin).
Qed.

Lemma in_startup_trace_stylesheet p e :
  In e (fst (apply_stylesheet p)) -> In e (startup_trace p).
Proof.
  intros H. unfold startup_trace.
  apply in_or_app; right. apply in_or_app; right.
  apply in_or_app; now left.
Qed.

Lemma in_startup_trace_finish p e :
  In e (fst (finish_setup p)) -> In e (startup_trace p).
Proof.
  intros H. unfold startup_trace.
  apply in_or_app; right. apply in_or_app; right. apply in_or_app; right.
  apply in_or_app; now left.
Qed.

Lemma in_startup_trace_before p e :
  In e (fst (before_try p)) -> In e (startup_trace p).
Proof. intros H. unfold startup_trace. apply in_or_app; now left. Qed.

(** X9. A style sheet is applied only when [qt_styles.qss] of the
    preferences directory exists, is a file and is readable, and it is
    then the text of that file; this holds whatever throws. When the
    three tests pass and no call throws, the style sheet is applied,
    in the [-t] mode as well. *)
Theorem stylesheet_applied_only_when_usable p :
  (forall sheet,
      In (setStyleSheet sheet) (fst (main_ p)) ->
      info_exists p (PrefsDir p +++ "/qt_styles.qss") = true /\
      info_isFile p (PrefsDir p +++ "/qt_styles.qss") = true /\
      info_isReadable p (PrefsDir p +++ "/qt_styles.qss") = true /\
      sheet = file_text p (PrefsDir p +++ "/qt_styles.qss"))
  /\
  (qVersion_suffices p = true -> quiet p ->
   info_exists p (PrefsDir p +++ "/qt_styles.qss") = true ->
   info_isFile p (PrefsDir p +++ "/qt_styles.qss") = true ->
   info_isReadable p (PrefsDir p +++ "/qt_styles.qss") = true ->
   In (setStyleSheet (file_text p (PrefsDir p +++ "/qt_styles.qss")))
     (fst (main_ p))).
Proof.
  split.
  - intros sheet Hin.
    assert (H : Forall (stylesheet_request p) (fst (main_ p))).
    { apply main_traced; try exact I.
      - open_blocks. traced_calls ltac:(exact I).
      - open_blocks.
        traced_calls ltac:(exact I).
        all: (apply traced_bind;
              [first [apply qtbase_loop_traced | apply sigil_loop_traced];
               intros; exact I
              | intros _; traced_calls ltac:(exact I)]).
        all: (apply traced_bind;
              [apply sigil_loop_traced; intros; exact I
              | intros _; traced_calls ltac:(exact I)]).
      - open_blocks.
        traced_calls ltac:(first [exact I
                                 | unfold stylesheet_request;
                                   repeat split; assumption]).
      - open_blocks. traced_calls ltac:(exact I).
      - open_blocks. traced_calls ltac:(exact I).
      - open_blocks. unfold GetMainWindow. traced_calls ltac:(exact I). }
    rewrite Forall_forall in H. exact (H _ Hin).
  - intros Hv Hq H1 H2 H3.
    destruct (main_quiet_startup p Hv Hq) as [t ->].
    apply in_or_app; left. apply in_startup_trace_stylesheet.
    unfold apply_stylesheet, call_, when. cbv zeta.
    quiet_calls Hq. rewrite H1. quiet_calls Hq. rewrite H2.
    quiet_calls Hq. rewrite H3. quiet_calls Hq.
    cbn [app In]. do 6 right. now left.
Qed.

(** The two translator loops under a property that holds of all their
    calls. *)
Ltac through_loops tac :=
  traced_calls tac;
  try (apply traced_bind;
       [apply qtbase_loop_traced; intros; solve [tac]
       | intros _; traced_calls tac]);
  try (apply traced_bind;
       [apply sigil_loop_traced; intros; solve [tac]
       | intros _; traced_calls tac]).

(** X10. A Haiku build never checks for updates, whatever throws. A
    build for any other platform starts the check during start-up when
    no call throws, in the [-t] mode as well. *)
Theorem update_check_except_on_haiku p :
  (HAIKU (build p) = true ->
   forallb (fun e => negb (update_check e)) (fst (main_ p)) = true)
  /\
  (HAIKU (build p) = false -> qVersion_suffices p = true -> quiet p ->
   In CheckForUpdate (fst (main_ p))).
Proof.
  split.
  - intros Hh. apply forallb_forall. apply Forall_forall.
    apply (main_traced (fun e => negb (update_check e) = true));
      try reflexivity.
    + open_blocks. traced_calls ltac:(reflexivity).
    + open_blocks. through_loops ltac:(reflexivity).
    + open_blocks. traced_calls ltac:(reflexivity).
    + open_blocks. rewrite Hh. cbn [negb].
      traced_calls ltac:(reflexivity).
    + open_blocks. traced_calls ltac:(reflexivity).
    + open_blocks. unfold GetMainWindow. traced_calls ltac:(reflexivity).
  - intros Hh Hv Hq.
    destruct (main_quiet_startup p Hv Hq) as [t ->].
    apply in_or_app; left. apply in_startup_trace_finish.
    unfold finish_setup, GetApplicationIcon. cbv zeta. rewrite Hh.
    cbn [negb].
    assert (Hin : forall (m : Run unit) (f : unit -> Run unit),
               In CheckForUpdate (fst (f tt)) -> finishes m ->
               In CheckForUpdate (fst (bind m f))).
    { intros m f Hf Hm. apply finishes_unit in Hm.
      rewrite (bind_gives m tt f Hm). apply in_or_app. now right. }
    apply Hin; [|apply finishes_when; now apply finishes_call].
    apply Hin; [|repeat finishes_step Hq].
    unfold when, call_. cbv beta iota. quiet_calls Hq.
    cbn [app In]. right. now left.
Qed.

(** X11. Off macOS [main] makes none of the macOS calls, whatever
    throws: it does not process events before the arguments are read,
    asks for no FileOpen path, builds no menu bar and shows no window
    to hold one; the arguments it goes on with are those of the command
    line. *)
Theorem mac_calls_only_on_mac p :
  Q_OS_MAC (build p) = false ->
  forallb (fun e => negb (mac_only e)) (fst (main_ p)) = true /\
  effective_arguments p = arguments p.
Proof.
  intros Hm. split.
  - apply forallb_forall. apply Forall_forall.
    apply (main_traced (fun e => negb (mac_only e) = true)); try reflexivity.
    + open_blocks. traced_calls ltac:(reflexivity).
    + open_blocks. through_loops ltac:(reflexivity).
    + open_blocks. traced_calls ltac:(reflexivity).
    + open_blocks. traced_calls ltac:(reflexivity).
    + open_blocks. rewrite Hm. traced_calls ltac:(reflexivity).
    + open_blocks. unfold GetMainWindow. rewrite Hm.
      traced_calls ltac:(reflexivity).
  - unfold effective_arguments. now rewrite Hm.
Qed.

(** X12. The drag distance is only ever raised: whatever throws,
    [main] sets it to 50 and only when it was below 50; when it was
    below 50 and no call throws, [main] does set it. *)
Theorem drag_distance_only_raised p :
  (forall d,
      In (setStartDragDistance d) (fst (main_ p)) ->
      d = 50 /\ app_startDragDistance p < 50)
  /\
  (app_startDragDistance p < 50 -> qVersion_suffices p = true -> quiet p ->
   In (setStartDragDistance 50) (fst (main_ p))).
Proof.
  split.
  - intros d Hin.
    assert (H : Forall (drag_request p) (fst (main_ p))).
    { apply main_traced; try exact I.
      - open_blocks.
        traced_calls ltac:(first [exact I
                                 | split; [reflexivity | now apply Z.ltb_lt]]).
      - open_blocks. through_loops ltac:(exact I).
      - open_blocks. traced_calls ltac:(exact I).
      - open_blocks. traced_calls ltac:(exact I).
      - open_blocks. traced_calls ltac:(exact I).
      - open_blocks. unfold GetMainWindow. traced_calls ltac:(exact I). }
    rewrite Forall_forall in H. exact (H _ Hin).
  - intros Hd Hv Hq.
    destruct (main_quiet_startup p Hv Hq) as [t ->].
    apply in_or_app; left. apply in_startup_trace_before.
    apply Z.ltb_lt in Hd.
    unfold before_try, call_, when. cbv zeta.
    destruct (negb (QT_DEBUG (build p)));
      destruct (0x050900 <=? QT_VERSION (build p));
      quiet_calls Hq; rewrite Hd; quiet_calls Hq; cbn [app In]; tauto.
Qed.

(** X13. The only file [main] probes is the one named by the argument
    after the program name, and it probes none in the [-t] mode;
    arguments further on are never looked at as files. This holds
    whatever throws. *)
Theorem only_first_argument_probed p f :
  In (IsFileReadable f) (fst (main_ p)) ->
  nth_error (effective_arguments p) 1 = Some f /\
  contains (effective_arguments p) "-t" = false.
Proof.
  intros Hin.
  assert (H : Forall (probe_request p) (fst (main_ p))).
  { apply main_traced; try exact I.
    - open_blocks. traced_calls ltac:(exact I).
    - open_blocks. through_loops ltac:(exact I).
    - open_blocks. traced_calls ltac:(exact I).
    - open_blocks. traced_calls ltac:(exact I).
    - open_blocks. traced_calls ltac:(exact I).
    - open_blocks. traced_calls ltac:(exact I).
      all: (apply traced_bind; [| intros _; traced_calls ltac:(exact I)]).
      all: (eapply Forall_impl; [|apply GetMainWindow_from_arguments]).
      all: (intros e He; destruct e; try exact I; cbn in He |- *;
            now split). }
  rewrite Forall_forall in H. exact (H _ Hin).
Qed.

Lemma installed_app t t' : installed (t ++ t') = installed t ++ installed t'.
Proof. apply flat_map_app. Qed.

Lemma installed_none t :
  Forall (fun e => installed [e] = []) t -> installed t = [].
Proof.
  induction 1 as [|e t He _ IH]; [reflexivity|].
  change (installed (e :: t)) with (installed ([e] ++ t)).
  now rewrite installed_app, He, IH.
Qed.

Lemma installed_none_run {A} (m : Run A) :
  traced (fun e => installed [e] = []) m -> installed (fst m) = [].
Proof. apply installed_none. Qed.

Lemma installed_in_translations p :
  quiet p ->
  installed (fst (install_translations p)) =
  [qtbaseTranslator; sigilTranslator].
Proof.
  intros Hq. unfold install_translations, call_.
  assert (L1 : forall n l, installed (fst (qtbase_loop p n l)) = []).
  { intros n l. apply installed_none.
    apply (qtbase_loop_traced (fun e => installed [e] = []));
      intros; reflexivity. }
  assert (L2 : forall n l, installed (fst (sigil_loop p n l)) = []).
  { intros n l. apply installed_none.
    apply (sigil_loop_traced (fun e => installed [e] = []));
      intros; reflexivity. }
  quiet_calls Hq.
  destruct (qtbase_loop_finishes p (arg "qtbase_%1" (settings_uiLanguage p))
              (PossibleTranslationPaths p) Hq) as [b1 H1].
  rewrite (bind_gives _ b1 _ H1). quiet_calls Hq.
  destruct (sigil_loop_finishes p (arg "sigil_%1" (settings_uiLanguage p))
              (PossibleTranslationPaths p) Hq) as [b2 H2].
  rewrite (bind_gives _ b2 _ H2). quiet_calls Hq.
  cbn [fst snd]. rewrite !installed_app, L1, L2. reflexivity.
Qed.

(** X14. The two translators are installed whether or not a
    translation was found for them: when no call throws, [main]
    installs the Qt translator and then Sigil's, each once, in every
    mode. Whatever throws, it never installs Sigil's translator before
    Qt's and never one of them twice. *)
Theorem translators_installed_in_order p :
  (exists rest,
      installed (fst (main_ p)) ++ rest = [qtbaseTranslator; sigilTranslator])
  /\
  (qVersion_suffices p = true -> quiet p ->
   installed (fst (main_ p)) = [qtbaseTranslator; sigilTranslator]).
Proof.
  assert (Hquiet : forall q,
             qVersion_suffices q = true -> quiet q ->
             installed (fst (main_ q)) = [qtbaseTranslator; sigilTranslator]).
  { intros q Hv Hq.
    assert (H0 : installed (fst (before_try q)) = []).
    { apply installed_none_run. open_blocks.
      traced_calls ltac:(reflexivity). }
    assert (H2 : installed (fst (apply_stylesheet q)) = []).
    { apply installed_none_run. open_blocks.
      traced_calls ltac:(reflexivity). }
    assert (H3 : installed (fst (finish_setup q)) = []).
    { apply installed_none_run. open_blocks.
      traced_calls ltac:(reflexivity). }
    assert (H4 : installed (fst (read_arguments q)) = []).
    { apply installed_none_run. open_blocks.
      traced_calls ltac:(reflexivity). }
    assert (H5 : installed (fst (when (Q_OS_MAC (build q)) (mac_menubar q)))
                 = []).
    { apply installed_none_run. open_blocks.
      traced_calls ltac:(reflexivity). }
    destruct (contains (effective_arguments q) "-t") eqn:Ht.
    - rewrite (main_quiet QString_of_chars toStdString std_exception_what
                 q _ _ Hv Hq (dispatch_query toStdString q _ Hq Ht)).
      cbn [fst]. unfold startup_trace. rewrite !installed_app.
      now rewrite (installed_in_translations q Hq), H0, H2, H3, H4.
    - rewrite (main_quiet QString_of_chars toStdString std_exception_what
                 q _ _ Hv Hq (dispatch_normal toStdString q _ Hq Ht)).
      cbn [fst]. unfold startup_trace. rewrite !installed_app.
      rewrite (installed_in_translations q Hq), H0, H2, H3, H4, H5.
      now destruct (_ >? _). }
  split; [|apply Hquiet].
  destruct (main_within_calm QString_of_chars toStdString std_exception_what p)
    as [t [rest [Ec Ep]]].
  assert (Hc : exists r, installed (fst (main_ (calm p))) ++ r =
                         [qtbaseTranslator; sigilTranslator]).
  { destruct (qVersion_suffices p) eqn:Hv.
    - exists []. rewrite app_nil_r. apply Hquiet; [exact Hv | apply calm_quiet].
    - unfold main.
      change (qVersion_suffices (calm p)) with (qVersion_suffices p).
      rewrite Hv. now eexists. }
  destruct Hc as [r Hr]. rewrite Ec, installed_app, <- app_assoc in Hr.
  exists (installed rest ++ r).
  destruct Ep as [-> | ->]; [exact Hr|].
  rewrite installed_app. cbn [installed flat_map app]. now rewrite app_nil_r.
Qed.

(** X15. A debug build never installs the message handler, whatever
    throws; a release build installs it when no call throws. *)
Theorem message_handler_in_release_builds p :
  (In qInstallMessageHandler (fst (main_ p)) -> QT_DEBUG (build p) = false)
  /\
  (QT_DEBUG (build p) = false -> qVersion_suffices p = true -> quiet p ->
   exists t, fst (main_ p) = qInstallMessageHandler :: t).
Proof.
  split.
  - intros Hin.
    assert (H : Forall (fun e => match e with
                                 | qInstallMessageHandler =>
                                     QT_DEBUG (build p) = false
                                 | _ => True
                                 end) (fst (main_ p))).
    { apply main_traced; try exact I.
      - open_blocks.
        traced_calls ltac:(first [exact I | now apply negb_true_iff]).
      - open_blocks. through_loops ltac:(exact I).
      - open_blocks. traced_calls ltac:(exact I).
      - open_blocks. traced_calls ltac:(exact I).
      - open_blocks. traced_calls ltac:(exact I).
      - open_blocks. unfold GetMainWindow. traced_calls ltac:(exact I). }
    rewrite Forall_forall in H. exact (H _ Hin).
  - intros Hd Hv Hq.
    destruct (main_quiet_startup p Hv Hq) as [t ->].
    unfold startup_trace, before_try, call_, when. cbv zeta. rewrite Hd.
    cbn [negb]. quiet_calls Hq. cbn [app]. now eexists.
Qed.

(** X16. The cursor flash time is only touched on request: whatever
    throws, [main] sets it only to 0 and only when
    [SIGIL_DISABLE_CURSOR_BLINK] is set. *)
Theorem cursor_blink_only_disabled_on_request p ms :
  In (setCursorFlashTime ms)
    (fst (main QString_of_chars toStdString std_exception_what p)) ->
  ms = 0 /\ env_is_set p "SIGIL_DISABLE_CURSOR_BLINK" = true.
Proof.
  intros Hin.
  assert (H : Forall (fun e => match e with
                               | setCursorFlashTime t =>
                                   t = 0 /\
                                   env_is_set p "SIGIL_DISABLE_CURSOR_BLINK"
                                   = true
                               | _ => True
                               end) (fst (main_ p))).
  { apply main_traced; try exact I.
    - open_blocks. traced_calls ltac:(exact I).
    - open_blocks. through_loops ltac:(exact I).
    - open_blocks. traced_calls ltac:(exact I).
    - open_blocks. traced_calls ltac:(first [exact I | now split]).
    - open_blocks. traced_calls ltac:(exact I).
    - open_blocks. unfold GetMainWindow. traced_calls ltac:(exact I). }
  rewrite Forall_forall in H. exact (H _ Hin).
Qed.

(** X17. The window icon is set by [main] only on builds that are
    neither for Windows nor for macOS, and the desktop file name only
    on such builds against Qt 5.7 or later; this holds whatever
    throws. *)
Theorem window_icon_off_windows_and_mac p :
  (In setWindowIcon (fst (main_ p)) ->
   Q_OS_WIN32 (build p) = false /\ Q_OS_MAC (build p) = false)
  /\
  (forall n,
      In (setDesktopFileName n) (fst (main_ p)) ->
      n = "sigil.desktop" /\
      Q_OS_WIN32 (build p) = false /\ Q_OS_MAC (build p) = false /\
      0x050700 <= QT_VERSION (build p)).
Proof.
  assert (H : Forall (fun e => match e with
                               | setWindowIcon =>
                                   Q_OS_WIN32 (build p) = false /\
                                   Q_OS_MAC (build p) = false
                               | setDesktopFileName n =>
                                   n = "sigil.desktop" /\
                                   Q_OS_WIN32 (build p) = false /\
                                   Q_OS_MAC (build p) = false /\
                                   0x050700 <= QT_VERSION (build p)
                               | _ => True
                               end) (fst (main_ p))).
  { apply main_traced; try exact I.
    - open_blocks. traced_calls ltac:(exact I).
    - open_blocks. through_loops ltac:(exact I).
    - open_blocks. traced_calls ltac:(exact I).
    - open_blocks.
      traced_calls ltac:(first
        [ exact I
        | match goal with
          | E : (negb _ && negb _)%bool = true |- _ =>
              apply andb_true_iff in E as [E1 E2];
              apply negb_true_iff in E1; apply negb_true_iff in E2
          end;
          repeat split; first [assumption | now apply Z.leb_le] ]).
    - open_blocks. traced_calls ltac:(exact I).
    - open_blocks. unfold GetMainWindow. traced_calls ltac:(exact I). }
  rewrite Forall_forall in H. split.
  - intros Hin. exact (H _ Hin).
  - intros n Hin. exact (H _ Hin).
Qed.

End StartupCalls.

(** ** The further properties on the sample runs *)

Ltac find_call := vm_compute; repeat (first [left; reflexivity | right]).

Lemma only_fatal_aborts_witness :
  sample_handler windows_build
    (desktop (Some code_view) (logfile_set_to "/tmp/sigil.log") true)
    QtFatalMsg "out of memory"
  = ([DisplayExceptionErrorDialog "Fatal: out of memory"; abort], Aborts) /\
  retries (fst (sample_handler windows_build (plain_desktop (Some code_view))
                  QtWarningMsg WIN_CLIPBOARD_ERROR)) = [] /\
  dialogs (fst (sample_handler windows_build (plain_desktop (Some code_view))
                  QtWarningMsg WIN_CLIPBOARD_ERROR)) = [].
Proof.
  split; [|split].
  - pose proof (only_fatal_aborts as_is as_is as_is windows_build
                  (desktop (Some code_view) (logfile_set_to "/tmp/sigil.log")
                     true) QtFatalMsg "out of memory") as [H1 [_ [H3 _]]].
    unfold sample_handler.
    rewrite (surjective_pairing (MessageHandler _ _ _ _ _ _ _)).
    rewrite (H3 eq_refl), (proj2 H1 eq_refl). reflexivity.
  - apply (proj1 (proj2 (proj2 (proj2
             (only_fatal_aborts as_is as_is as_is windows_build
                (plain_desktop (Some code_view)) QtWarningMsg
                WIN_CLIPBOARD_ERROR))))). discriminate.
  - apply (proj2 (proj2 (proj2 (proj2
             (only_fatal_aborts as_is as_is as_is windows_build
                (plain_desktop (Some code_view)) QtWarningMsg
                WIN_CLIPBOARD_ERROR))))). right. right. reflexivity.
Defined.

Lemma windows_log_one_line_per_event_witness :
  log_opens (fst (sample_handler windows_build
                    (desktop None (logfile_set_to "/tmp/sigil.log") true)
                    QtCriticalMsg "disk full")) = ["/tmp/sigil.log"] /\
  log_lines (fst (sample_handler windows_build
                    (desktop None (logfile_set_to "/tmp/sigil.log") true)
                    QtCriticalMsg "disk full")) = [("/tmp/sigil.log", LF)].
Proof.
  apply (windows_log_one_line_per_event as_is as_is as_is windows_build
           (desktop None (logfile_set_to "/tmp/sigil.log") true)
           QtCriticalMsg "disk full" "/tmp/sigil.log");
    [reflexivity | reflexivity | discriminate | discriminate].
Defined.

Lemma focus_only_matters_for_windows_critical_witness :
  sample_handler haiku_build (plain_desktop (Some code_view))
    QtCriticalMsg WIN_CLIPBOARD_ERROR
  = sample_handler haiku_build (plain_desktop None)
      QtCriticalMsg WIN_CLIPBOARD_ERROR.
Proof.
  apply (focus_only_matters_for_windows_critical as_is as_is as_is haiku_build
           (plain_desktop None) (plain_desktop (Some code_view))
           QtCriticalMsg WIN_CLIPBOARD_ERROR);
    [reflexivity | reflexivity | right; reflexivity].
Defined.

Lemma file_new_opens_an_empty_window_witness :
  Slots.file_new mac_process
  = ([MainWindow_new EmptyString; MainWindow_show], Normal tt).
Proof.
  apply (proj2 (proj2 (file_new_opens_an_empty_window mac_process))).
  intros e. reflexivity.
Defined.

Lemma file_open_window_follows_the_dialog_witness :
  (length (fst (Slots.file_open mac_process (dialog_picking EmptyString)))
   = 2%nat) /\
  skipn 2 (fst (Slots.file_open mac_process
                  (dialog_picking "/home/user/book.epub")))
  = [shared (IsFileReadable "/home/user/book.epub");
     shared (MainWindow_new "/home/user/book.epub");
     shared MainWindow_show] /\
  skipn 2 (fst (Slots.file_open mac_process
                  (dialog_picking "/root/secret.epub")))
  = [shared (IsFileReadable "/root/secret.epub");
     shared (MainWindow_new EmptyString);
     shared MainWindow_show].
Proof.
  split; [|split].
  - apply (proj1 (file_open_window_follows_the_dialog mac_process
                    (dialog_picking EmptyString))). reflexivity.
  - apply (proj2 (proj2 (proj2 (file_open_window_follows_the_dialog mac_process
                    (dialog_picking "/home/user/book.epub")))));
      [discriminate | intros e; reflexivity].
  - apply (proj2 (proj2 (proj2 (file_open_window_follows_the_dialog mac_process
                    (dialog_picking "/root/secret.epub")))));
      [discriminate | intros e; reflexivity].
Defined.

Lemma file_open_offers_every_filter_once_witness :
  removeDuplicates (values sample_filters)
  = ["All Files (*.*)"; "EPUB files (*.epub)";
     "HTML files (*.htm *.html *.xhtml)"; "Text files (*.txt)"] /\
  In (value sample_filters "epub") (removeDuplicates (values sample_filters)) /\
  value [("txt", "Text files (*.txt)")] "epub" = EmptyString /\
  (exists offered_before offered_after,
      removeDuplicates (values sample_filters)
      = offered_before ++ "Text files (*.txt)" :: offered_after /\
      forall g,
        In g offered_before <->
        In g ["All Files (*.*)"; "EPUB files (*.epub)";
              "HTML files (*.htm *.html *.xhtml)";
              "HTML files (*.htm *.html *.xhtml)"]).
Proof.
  pose proof (file_open_offers_every_filter_once mac_process
                (dialog_picking EmptyString)) as [_ [_ [Ho [_ [He _]]]]].
  split; [reflexivity|]. split; [|split].
  - apply He. exists "EPUB files (*.epub)". right. left. reflexivity.
  - apply (proj2 (proj2 (proj2 (proj2 (proj2
             (file_open_offers_every_filter_once mac_process
                {| LoadFiltersMap := [("txt", "Text files (*.txt)")];
                   picked_file := EmptyString |})))))).
    intros v [H | []]. discriminate.
  - apply (Ho _ "Text files (*.txt)"
             ["HTML files (*.htm *.html *.xhtml)"]).
    + reflexivity.
    + cbn [In]. intros [H | [H | [H | [H | []]]]]; discriminate.
Defined.

Lemma translations_requested_by_name_witness :
  In (QTranslator_load sigilTranslator "sigil_fr" "/opt/sigil/translations")
    (fst (sample_main normal_process)) /\
  "sigil_fr" = qm_name_of sigilTranslator (settings_uiLanguage normal_process) /\
  dir_exists normal_process "/opt/sigil/translations" = true.
Proof.
  assert (Hin : In (QTranslator_load sigilTranslator "sigil_fr"
                      "/opt/sigil/translations")
                  (fst (sample_main normal_process))) by find_call.
  split; [exact Hin|].
  destruct (translations_requested_by_name as_is as_is "std::exception"
              normal_process _ _ _ Hin) as [H1 [_ H3]].
  now split.
Defined.

Lemma stylesheet_applied_only_when_usable_witness :
  In (setStyleSheet "QToolBar { border: 0 }") (fst (sample_main styled_process))
  /\
  (In (setStyleSheet "QToolBar { border: 0 }")
     (fst (sample_main styled_process)) ->
   info_isReadable styled_process
     (PrefsDir styled_process +++ "/qt_styles.qss") = true).
Proof.
  split.
  - apply (proj2 (stylesheet_applied_only_when_usable as_is as_is
                    "std::exception" styled_process));
      first [reflexivity | intros e; reflexivity].
  - intros Hin.
    apply (proj1 (stylesheet_applied_only_when_usable as_is as_is
                    "std::exception" styled_process) _ Hin).
Defined.

Lemma update_check_except_on_haiku_witness :
  forallb (fun e => negb (update_check e)) (fst (sample_main haiku_process))
  = true /\
  In CheckForUpdate (fst (sample_main query_process)).
Proof.
  split.
  - apply (proj1 (update_check_except_on_haiku as_is as_is "std::exception"
                    haiku_process)). reflexivity.
  - apply (proj2 (update_check_except_on_haiku as_is as_is "std::exception"
                    query_process));
      first [reflexivity | intros e; reflexivity].
Defined.

Lemma mac_calls_only_on_mac_witness :
  forallb (fun e => negb (mac_only e)) (fst (sample_main normal_process))
  = true /\
  effective_arguments normal_process = arguments normal_process.
Proof.
  apply (mac_calls_only_on_mac as_is as_is "std::exception" normal_process).
  reflexivity.
Defined.

Lemma drag_distance_only_raised_witness :
  In (setStartDragDistance 50) (fst (sample_main normal_process)) /\
  (In (setStartDragDistance 50) (fst (sample_main normal_process)) ->
   app_startDragDistance normal_process < 50).
Proof.
  split.
  - apply (proj2 (drag_distance_only_raised as_is as_is "std::exception"
                    normal_process));
      first [reflexivity | intros e; reflexivity].
  - intros Hin.
    apply (proj1 (drag_distance_only_raised as_is as_is "std::exception"
                    normal_process) _ Hin).
Defined.

Lemma only_first_argument_probed_witness :
  In (IsFileReadable "/home/user/book.epub") (fst (sample_main haiku_process))
  /\
  nth_error (effective_arguments haiku_process) 1
  = Some "/home/user/book.epub".
Proof.
  assert (Hin : In (IsFileReadable "/home/user/book.epub")
                  (fst (sample_main haiku_process))) by find_call.
  split; [exact Hin|].
  apply (only_first_argument_probed as_is as_is "std::exception"
           haiku_process _ Hin).
Defined.

Lemma translators_installed_in_order_witness :
  installed (fst (sample_main styled_process))
  = [qtbaseTranslator; sigilTranslator] /\
  exists rest,
    installed (fst (sample_main plugin_failure_process)) ++ rest
    = [qtbaseTranslator; sigilTranslator].
Proof.
  split.
  - apply (proj2 (translators_installed_in_order as_is as_is "std::exception"
                    styled_process));
      first [reflexivity | intros e; reflexivity].
  - apply (proj1 (translators_installed_in_order as_is as_is "std::exception"
                    plugin_failure_process)).
Defined.

Lemma message_handler_in_release_builds_witness :
  exists t, fst (sample_main normal_process) = qInstallMessageHandler :: t.
Proof.
  apply (proj2 (message_handler_in_release_builds as_is as_is "std::exception"
                  normal_process));
    first [reflexivity | intros e; reflexivity].
Defined.

Lemma cursor_blink_only_disabled_on_request_witness :
  In (setCursorFlashTime 0) (fst (sample_main styled_process)) /\
  env_is_set styled_process "SIGIL_DISABLE_CURSOR_BLINK" = true.
Proof.
  assert (Hin : In (setCursorFlashTime 0) (fst (sample_main styled_process)))
    by find_call.
  split; [exact Hin|].
  apply (cursor_blink_only_disabled_on_request as_is as_is "std::exception"
           styled_process _ Hin).
Defined.

Lemma window_icon_off_windows_and_mac_witness :
  In setWindowIcon (fst (sample_main normal_process)) /\
  Q_OS_WIN32 (build normal_process) = false /\
  Q_OS_MAC (build normal_process) = false.
Proof.
  assert (Hin : In setWindowIcon (fst (sample_main normal_process)))
    by find_call.
  split; [exact Hin|].
  apply (proj1 (window_icon_off_windows_and_mac as_is as_is "std::exception"
                  normal_process) Hin).
Defined.
